(** * Origin-gated request router of the key-management snap

    A shallow embedding of [packages/snap/src/permissions.ts] and
    [packages/snap/src/index.ts], and the properties of the permission
    check, the lazily built keyring singleton and the two request
    handlers. *)

From Stdlib Require Import ZArith.
From stdpp Require Import gmap strings list fin_maps.

Open Scope string_scope.

(** ** permissions.ts *)

(** [enum InternalMethod]: the three custom method names. *)
Module InternalMethod.
Definition ToggleSyncApprovals : string :=
  "snap.internal.toggleSynchronousApprovals".
Definition IsSynchronousMode : string :=
  "snap.internal.isSynchronousMode".
Definition CreateAccountWithPrivateKey : string :=
  "snap.internal.createAccountWithPrivateKey".
End InternalMethod.

(** [enum KeyringRpcMethod] is imported from [@metamask/keyring-api]; the
    snap only names its members.  The members used by the table are the
    constructors of [t]; the string each one stands for is a parameter of
    the development ([rpcName]). *)
Module KeyringRpcMethod.
Inductive t : Set :=
| ListAccounts | GetAccount | CreateAccount | FilterAccountChains
| UpdateAccount | DeleteAccount | ExportAccount
| ListRequests | GetRequest | SubmitRequest | ApproveRequest | RejectRequest.

Definition all : list t :=
  [ ListAccounts; GetAccount; CreateAccount; FilterAccountChains;
    UpdateAccount; DeleteAccount; ExportAccount;
    ListRequests; GetRequest; SubmitRequest; ApproveRequest; RejectRequest ].
End KeyringRpcMethod.

(** The string values of the imported enum. *)
Class KeyringApi := rpcName : KeyringRpcMethod.t → string.

(** The values the enum has in the published keyring API, used to run the
    model on concrete requests. *)
Definition keyring_api_names : KeyringApi := λ m,
  match m with
  | KeyringRpcMethod.ListAccounts => "keyring_listAccounts"
  | KeyringRpcMethod.GetAccount => "keyring_getAccount"
  | KeyringRpcMethod.CreateAccount => "keyring_createAccount"
  | KeyringRpcMethod.FilterAccountChains => "keyring_filterAccountChains"
  | KeyringRpcMethod.UpdateAccount => "keyring_updateAccount"
  | KeyringRpcMethod.DeleteAccount => "keyring_deleteAccount"
  | KeyringRpcMethod.ExportAccount => "keyring_exportAccount"
  | KeyringRpcMethod.ListRequests => "keyring_listRequests"
  | KeyringRpcMethod.GetRequest => "keyring_getRequest"
  | KeyringRpcMethod.SubmitRequest => "keyring_submitRequest"
  | KeyringRpcMethod.ApproveRequest => "keyring_approveRequest"
  | KeyringRpcMethod.RejectRequest => "keyring_rejectRequest"
  end.

(** [new Map(entries)]: the entries are [set] one after the other, so a
    later entry for a key replaces an earlier one. *)
Definition Map_new {V} (entries : list (string * V)) : gmap string V :=
  foldl (λ m kv, <[kv.1 := kv.2]> m) ∅ entries.

(** [Array.prototype.includes] on an array of strings: a left-to-right
    scan comparing with string equality. *)
Fixpoint includes (l : list string) (x : string) : bool :=
  match l with
  | [] => false
  | y :: l' => if String.eqb y x then true else includes l' x
  end.

Section Permissions.
Context `{api : KeyringApi}.

Definition metamask_methods : list string :=
  [ rpcName KeyringRpcMethod.ListAccounts;
    rpcName KeyringRpcMethod.GetAccount;
    rpcName KeyringRpcMethod.FilterAccountChains;
    rpcName KeyringRpcMethod.DeleteAccount;
    rpcName KeyringRpcMethod.ListRequests;
    rpcName KeyringRpcMethod.GetRequest;
    rpcName KeyringRpcMethod.SubmitRequest;
    rpcName KeyringRpcMethod.RejectRequest ].

Definition localhost_methods : list string :=
  [ rpcName KeyringRpcMethod.ListAccounts;
    rpcName KeyringRpcMethod.GetAccount;
    rpcName KeyringRpcMethod.CreateAccount;
    rpcName KeyringRpcMethod.FilterAccountChains;
    rpcName KeyringRpcMethod.UpdateAccount;
    rpcName KeyringRpcMethod.DeleteAccount;
    rpcName KeyringRpcMethod.ExportAccount;
    rpcName KeyringRpcMethod.ListRequests;
    rpcName KeyringRpcMethod.GetRequest;
    rpcName KeyringRpcMethod.ApproveRequest;
    rpcName KeyringRpcMethod.RejectRequest;
    InternalMethod.ToggleSyncApprovals;
    InternalMethod.IsSynchronousMode;
    InternalMethod.CreateAccountWithPrivateKey ].

Definition github_methods : list string :=
  [ rpcName KeyringRpcMethod.ListAccounts;
    rpcName KeyringRpcMethod.GetAccount;
    rpcName KeyringRpcMethod.CreateAccount;
    rpcName KeyringRpcMethod.FilterAccountChains;
    rpcName KeyringRpcMethod.UpdateAccount;
    rpcName KeyringRpcMethod.DeleteAccount;
    rpcName KeyringRpcMethod.ExportAccount;
    rpcName KeyringRpcMethod.ListRequests;
    rpcName KeyringRpcMethod.GetRequest;
    rpcName KeyringRpcMethod.ApproveRequest;
    rpcName KeyringRpcMethod.RejectRequest;
    InternalMethod.ToggleSyncApprovals;
    InternalMethod.IsSynchronousMode;
    InternalMethod.CreateAccountWithPrivateKey ].

Definition originPermissions : gmap string (list string) :=
  Map_new
    [ ("metamask", metamask_methods);
      ("http://localhost:8000", localhost_methods);
      ("https://metamask.github.io", github_methods) ].

(** [originPermissions.get(origin)?.includes(method) ?? false] *)
Definition hasPermission (origin method : string) : bool :=
  match originPermissions !! origin with
  | Some methods => includes methods method
  | None => false
  end.

End Permissions.

(** ** index.ts: values, collaborators and the effect model *)

Section Snap.
(** [Json]: the JSON values of requests and results; [State]: the
    persisted keyring state.  Both are opaque to this layer. *)
Context {Json State : Type}.
Context `{api : KeyringApi}.

(** The [request] member of a handler's argument. *)
Record JsonRpcRequest : Type := {
  req_id : Json;
  method : string;
  params : option Json;
}.

(** An object built by [new SimpleKeyring(state)].  [kr_address] is the
    identity of the object: two objects are the same reference exactly
    when their addresses agree. *)
Record SimpleKeyring : Type := {
  kr_address : nat;
  kr_state : State;
}.

(** The argument of [snap.request] for [snap_getEntropy]: [params] is
    [{ version: 1, salt?: string }]. *)
Record GetEntropyParams : Type := {
  version : Z;
  salt : option string;
}.

Record SnapRequest : Type := {
  snap_method : string;
  snap_params : GetEntropyParams;
}.

(** The argument of [SimpleKeyring.createAccount]. *)
Record CreateAccountOptions : Type := {
  privateKey : string;
}.

(** What a [throw] or a rejected promise carries. *)
Inductive Thrown : Type :=
| Error (message : string)
| MethodNotSupportedError (unsupported : string)
| Failure (reason : Json).

Inductive Outcome (A : Type) : Type :=
| Resolved (a : A)
| Rejected (e : Thrown).
Arguments Resolved {A} a.
Arguments Rejected {A} e.

(** Every call that leaves [index.ts], in program order. *)
Inductive Event : Type :=
| EvLoggerDebug (message body : string)
| EvGetState
| EvNewSimpleKeyring (k : SimpleKeyring)
| EvSnapRequest (r : SnapRequest)
| EvToggleSyncApprovals (k : SimpleKeyring)
| EvIsSynchronousMode (k : SimpleKeyring)
| EvCreateAccount (k : SimpleKeyring) (options : CreateAccountOptions)
| EvHandleKeyringRequest (k : SimpleKeyring) (request : JsonRpcRequest).

(** The module state: the [let keyring] variable ([None] is [undefined]),
    the number of objects allocated so far, and the calls made. *)
Record World : Type := {
  keyring : option SimpleKeyring;
  allocated : nat;
  trace : list Event;
}.

(** The world when the module has just been loaded. *)
Definition boot : World :=
  {| keyring := None; allocated := 0; trace := [] |}.

Definition record (e : Event) (w : World) : World :=
  {| keyring := keyring w; allocated := allocated w;
     trace := trace w ++ [e] |}.

(** The code outside [src/] that [index.ts] calls.  A collaborator answers
    from the calls made so far; [JSON_stringify] and [remove0x] are pure. *)
Class Collaborators : Type := {
  JSON_stringify : JsonRpcRequest → string;
  remove0x : string → string;
  getState_reply : list Event → Outcome State;
  snap_request_reply : list Event → SnapRequest → Outcome string;
  toggleSyncApprovals_reply : list Event → SimpleKeyring → Outcome Json;
  isSynchronousMode_reply : list Event → SimpleKeyring → Outcome Json;
  createAccount_reply :
    list Event → SimpleKeyring → CreateAccountOptions → Outcome Json;
  handleKeyringRequest_reply :
    list Event → SimpleKeyring → JsonRpcRequest → Outcome Json;
}.

(** An async function run to completion with no other call interleaved:
    it ends resolved or rejected and leaves a new world. *)
Definition Async (A : Type) : Type := World → Outcome A * World.

#[export] Instance Async_ret : MRet Async := λ A a w, (Resolved a, w).

#[export] Instance Async_bind : MBind Async := λ A B f m w,
  match m w with
  | (Resolved a, w') => f a w'
  | (Rejected e, w') => (Rejected e, w')
  end.

Definition throw {A} (e : Thrown) : Async A := λ w, (Rejected e, w).

(** Calling (and awaiting) a collaborator. *)
Definition call {A} (e : Event) (reply : list Event → Outcome A) : Async A :=
  λ w, (reply (trace w), record e w).

(** [logger.debug(message, body)]; the logger is taken to return. *)
Definition logger_debug (message body : string) : Async unit :=
  λ w, (Resolved (), record (EvLoggerDebug message body) w).

(** ** getKeyring *)

(** A call of [getKeyring] is either parked at [await getState()] or has
    settled. *)
Inductive Task : Type :=
| Suspended
| Settled (r : Outcome SimpleKeyring).

(** From the call to the first [await]: the outer [if (!keyring)], and the
    call of [getState] when the variable is empty. *)
Definition getKeyring_enter (w : World) : Task * World :=
  match keyring w with
  | Some k => (Settled (Resolved k), w)
  | None => (Suspended, record EvGetState w)
  end.

(** From the settling of [getState()] to the end: a rejection is passed
    on, a state goes through the inner [if (!keyring)].  The constructor
    of [SimpleKeyring] is taken to return a new object holding the state,
    without calling anything. *)
Definition getKeyring_resume (loaded : Outcome State) (w : World)
  : Outcome SimpleKeyring * World :=
  match loaded with
  | Rejected e => (Rejected e, w)
  | Resolved state =>
      match keyring w with
      | Some k => (Resolved k, w)
      | None =>
          let k := {| kr_address := allocated w; kr_state := state |} in
          (Resolved k,
           {| keyring := Some k; allocated := S (allocated w);
              trace := trace w ++ [EvNewSimpleKeyring k] |})
      end
  end.

(** *** Overlapping calls

    The host runs handler code without preemption: a call of [getKeyring]
    runs from its start to its [await], and later from the settling of
    that [await] to its end, and other calls may run in between.  A
    schedule lists these segments in the order they run; the answer of the
    persistence layer comes with the segment that receives it. *)
Record System : Type := {
  world : World;
  tasks : gmap nat Task;
}.

Inductive Action : Type :=
| Call (i : nat)
| Resume (i : nat) (loaded : Outcome State).

Definition step (s : System) (a : Action) : System :=
  match a with
  | Call i =>
      match tasks s !! i with
      | Some _ => s
      | None =>
          let '(t, w) := getKeyring_enter (world s) in
          {| world := w; tasks := <[i := t]> (tasks s) |}
      end
  | Resume i loaded =>
      match tasks s !! i with
      | Some Suspended =>
          let '(r, w) := getKeyring_resume loaded (world s) in
          {| world := w; tasks := <[i := Settled r]> (tasks s) |}
      | _ => s
      end
  end.

Definition run (s : System) (schedule : list Action) : System :=
  foldl step s schedule.

Definition started : System := {| world := boot; tasks := ∅ |}.

(** How often [getState] was called, and the objects built by
    [new SimpleKeyring], read off the trace. *)
Definition is_load (e : Event) : bool :=
  match e with EvGetState => true | _ => false end.

Definition loads (w : World) : nat := length (filter is_load (trace w)).

Definition built (e : Event) : option SimpleKeyring :=
  match e with EvNewSimpleKeyring k => Some k | _ => None end.

Definition constructed (w : World) : list SimpleKeyring :=
  omap built (trace w).

(** Calls of a collaborator other than the logger. *)
Definition is_collaborator_call (e : Event) : bool :=
  match e with EvLoggerDebug _ _ => false | _ => true end.

Definition collaborator_calls (w : World) : list Event :=
  filter is_collaborator_call (trace w).

(** All the ways of merging two sequences of segments. *)
Fixpoint interleavings {A} (l1 : list A) : list A → list (list A) :=
  fix merge (l2 : list A) : list (list A) :=
    match l1, l2 with
    | [], _ => [l2]
    | _, [] => [l1]
    | x :: l1', y :: l2' =>
        (map (cons x) (interleavings l1' l2) ++ map (cons y) (merge l2'))%list
    end.

Definition is_call (a : Action) : bool :=
  match a with Call _ => true | Resume _ _ => false end.

(** Two calls overlap when both have started before either is resumed. *)
Definition overlapping (schedule : list Action) : bool :=
  forallb is_call (take 2 schedule).

(** The cache and the settled calls agree with what was built. *)
Definition coherent (s : System) : Prop :=
  match keyring (world s) with
  | None =>
      constructed (world s) = []
      ∧ ∀ i k, tasks s !! i ≠ Some (Settled (Resolved k))
  | Some k =>
      constructed (world s) = [k]
      ∧ ∀ i k', tasks s !! i = Some (Settled (Resolved k')) → k' = k
  end.




(** *** What a trace shows

    Requests for entropy, the keyring each keyring call was made on, and
    the order of loading and building. *)
Definition is_entropy_request (e : Event) : bool :=
  match e with EvSnapRequest _ => true | _ => false end.

Definition entropy_requests (w : World) : nat :=
  length (filter is_entropy_request (trace w)).

Definition keyring_used (e : Event) : option SimpleKeyring :=
  match e with
  | EvToggleSyncApprovals k | EvIsSynchronousMode k
  | EvCreateAccount k _ | EvHandleKeyringRequest k _ => Some k
  | _ => None
  end.

Definition keyrings_used (w : World) : list SimpleKeyring :=
  omap keyring_used (trace w).

(** Every call of [getState] comes before every [new SimpleKeyring]. *)
Definition loads_precede_build (t : list Event) : Prop :=
  ∀ i j k, t !! i = Some (EvNewSimpleKeyring k) → t !! j = Some EvGetState →
           j < i.

(** The [keyring] variable holds what was built, every keyring call was
    made on that object, and nothing was loaded after it was built. *)
Definition sound (w : World) : Prop :=
  constructed w = option_list (keyring w)
  ∧ (∀ k, k ∈ keyrings_used w → keyring w = Some k)
  ∧ loads_precede_build (trace w).


(** [w'] comes after [w]: the trace has only grown, and a keyring that
    [w] holds is still held, with nothing loaded, allocated or built in
    between. *)
Definition follows (w w' : World) : Prop :=
  (∃ rest, trace w' = (trace w ++ rest)%list)
  ∧ (∀ k, keyring w = Some k →
       keyring w' = Some k ∧ allocated w' = allocated w
       ∧ loads w' = loads w ∧ constructed w' = constructed w).


Section Handlers.
Context `{host : Collaborators}.

Definition getKeyring : Async SimpleKeyring := λ w,
  match getKeyring_enter w with
  | (Settled r, w') => (r, w')
  | (Suspended, w') => getKeyring_resume (getState_reply (trace w)) w'
  end.

(** ** getEntropy *)

Definition getEntropy : Async string :=
  let request :=
    {| snap_method := "snap_getEntropy";
       snap_params := {| version := 1; salt := None |} |} in
  entropy ← call (EvSnapRequest request) (λ t, snap_request_reply t request);
  mret (remove0x entropy).

(** ** The handlers *)

Definition dquote : string := String (Ascii.ascii_of_nat 34) EmptyString.

Definition not_allowed (origin method_name : string) : string :=
  "Origin '" +:+ origin +:+ "' is not allowed to call '" +:+ method_name +:+ "'".

Definition onRpcRequest (origin : string) (request : JsonRpcRequest)
  : Async Json :=
  logger_debug ("RPC request (origin=" +:+ dquote +:+ origin +:+ dquote +:+ "):")
               (JSON_stringify request);;
  if negb (hasPermission origin (method request)) then
    throw (Error (not_allowed origin (method request)))
  else if String.eqb (method request) InternalMethod.ToggleSyncApprovals then
    k ← getKeyring;
    call (EvToggleSyncApprovals k) (λ t, toggleSyncApprovals_reply t k)
  else if String.eqb (method request) InternalMethod.IsSynchronousMode then
    k ← getKeyring;
    call (EvIsSynchronousMode k) (λ t, isSynchronousMode_reply t k)
  else if String.eqb (method request)
                     InternalMethod.CreateAccountWithPrivateKey then
    entropy ← getEntropy;
    k ← getKeyring;
    let options := {| privateKey := entropy |} in
    call (EvCreateAccount k options) (λ t, createAccount_reply t k options)
  else
    throw (MethodNotSupportedError (method request)).

Definition onKeyringRequest (origin : string) (request : JsonRpcRequest)
  : Async Json :=
  logger_debug
    ("Keyring request (origin=" +:+ dquote +:+ origin +:+ dquote +:+ "):")
    (JSON_stringify request);;
  if negb (hasPermission origin (method request)) then
    throw (Error (not_allowed origin (method request)))
  else
    k ← getKeyring;
    call (EvHandleKeyringRequest k request)
         (λ t, handleKeyringRequest_reply t k request).

(** Handlers called one after the other, each run to completion. *)
Fixpoint serve (calls : list (Async Json)) (w : World)
  : list (Outcome Json) * World :=
  match calls with
  | [] => ([], w)
  | c :: calls' =>
      let '(r, w') := c w in
      let '(rs, w'') := serve calls' w' in
      (r :: rs, w'')
  end.

(** What the host delivers: a call of one of the two exported handlers. *)
Inductive Invocation : Type :=
| RpcRequest (origin : string) (request : JsonRpcRequest)
| KeyringRequest (origin : string) (request : JsonRpcRequest).

Definition deliver (c : Invocation) : Async Json :=
  match c with
  | RpcRequest origin request => onRpcRequest origin request
  | KeyringRequest origin request => onKeyringRequest origin request
  end.


End Handlers.
End Snap.

Arguments Resolved {Json A} a.
Arguments Rejected {Json A} e.
Arguments JsonRpcRequest Json : clear implicits.
Arguments SimpleKeyring State : clear implicits.
Arguments Thrown Json : clear implicits.
Arguments Outcome Json A : clear implicits.
Arguments Event Json State : clear implicits.
Arguments World Json State : clear implicits.
Arguments Collaborators Json State : clear implicits.
Arguments Async Json State A : clear implicits.
Arguments Task Json State : clear implicits.
Arguments System Json State : clear implicits.
Arguments Action Json State : clear implicits.
Arguments Invocation Json : clear implicits.

(** * The model on concrete requests *)

(** [remove0x] of [@metamask/utils]: drops a leading [0x] or [0X]. *)
Definition strip_hex_prefix (hexadecimal : string) : string :=
  if (String.prefix "0x" hexadecimal || String.prefix "0X" hexadecimal)%bool
  then String.substring 2 (String.length hexadecimal - 2) hexadecimal
  else hexadecimal.

(** Collaborators for running the handlers: JSON values are strings, the
    persisted state is a number.  The first load of the state answers
    [first_load]; every later one answers state [7]. *)
Definition sample_host (first_load : Outcome string nat)
  : Collaborators string nat :=
  {| JSON_stringify := λ request, method request;
     remove0x := strip_hex_prefix;
     getState_reply := λ t,
       if forallb (λ e, negb (is_load e)) t then first_load else Resolved 7;
     snap_request_reply := λ _ _, Resolved "0x1f2e3d";
     toggleSyncApprovals_reply := λ _ _, Resolved "null";
     isSynchronousMode_reply := λ _ _, Resolved "true";
     createAccount_reply := λ _ _ options,
       Resolved ("account:" +:+ privateKey options);
     handleKeyringRequest_reply := λ _ _ request,
       Resolved ("handled:" +:+ method request) |}.

Definition get_request : JsonRpcRequest string :=
  {| req_id := "1"; method := "keyring_getRequest"; params := Some "{}" |}.

Definition create_account : JsonRpcRequest string :=
  {| req_id := "2"; method := "keyring_createAccount"; params := None |}.

Definition evil_request : JsonRpcRequest string :=
  {| req_id := "3"; method := "keyring_listAccounts"; params := None |}.

Definition always_loads : Collaborators string nat :=
  sample_host (Resolved 7).

Definition first_load_fails : Collaborators string nat :=
  sample_host (Rejected (Failure "storage unavailable")).

(** Collaborators whose entropy service refuses. *)
Definition entropy_denied : Collaborators string nat :=
  {| JSON_stringify := λ request, method request;
     remove0x := strip_hex_prefix;
     getState_reply := λ _, Resolved 7;
     snap_request_reply := λ _ _, Rejected (Failure "user rejected");
     toggleSyncApprovals_reply := λ _ _, Resolved "null";
     isSynchronousMode_reply := λ _ _, Resolved "true";
     createAccount_reply := λ _ _ options,
       Resolved ("account:" +:+ privateKey options);
     handleKeyringRequest_reply := λ _ _ request,
       Resolved ("handled:" +:+ method request) |}.

Definition create_with_private_key : JsonRpcRequest string :=
  {| req_id := "6"; method := InternalMethod.CreateAccountWithPrivateKey;
     params := None |}.


(** * Properties *)

Section Properties.
Context {Json State : Type}.
Context `{api : KeyringApi}.
Context `{host : Collaborators Json State}.

(** ** The permission check *)

Lemma includes_elem_of (l : list string) (x : string) :
  includes l x = true ↔ x ∈ l.
Proof.
  induction l as [|y l IH]; simpl.
  - split; [discriminate | intros H; inversion H].
  - destruct (String.eqb_spec y x) as [->|Hne].
    + split; [intros _; left | reflexivity].
    + rewrite IH. split.
      * now right.
      * intros H. inversion H; subst; [congruence | assumption].
Qed.

Lemma includes_not_elem_of (l : list string) (x : string) :
  includes l x = false ↔ x ∉ l.
Proof.
  rewrite <- includes_elem_of. destruct (includes l x); split; congruence.
Qed.

Lemma originPermissions_metamask :
  originPermissions !! "metamask" = Some metamask_methods.
Proof. reflexivity. Qed.

Lemma originPermissions_localhost :
  originPermissions !! "http://localhost:8000" = Some localhost_methods.
Proof. reflexivity. Qed.

Lemma originPermissions_github :
  originPermissions !! "https://metamask.github.io" = Some github_methods.
Proof. reflexivity. Qed.


Lemma originPermissions_unknown (origin : string) :
  origin ≠ "metamask" →
  origin ≠ "http://localhost:8000" →
  origin ≠ "https://metamask.github.io" →
  originPermissions !! origin = None.
Proof.
  intros H1 H2 H3. unfold originPermissions, Map_new. simpl.
  rewrite !lookup_insert_ne by congruence. apply lookup_empty.
Qed.

Lemma originPermissions_dom :
  dom originPermissions
  = ({[ "metamask"; "http://localhost:8000"; "https://metamask.github.io" ]}
       : gset string).
Proof.
  unfold originPermissions, Map_new. simpl.
  rewrite !dom_insert_L, dom_empty_L. set_solver.
Qed.

(** C1.  [hasPermission] answers [true] exactly when the origin has an
    entry in [originPermissions] and the method is an element of that
    entry's list; an origin with no entry (any string other than the three
    configured ones, the empty string among them) gets [false] for every
    method.  The check is a function of its two arguments alone: it takes
    no world and returns a [bool] on every input. *)
Theorem hasPermission_iff_listed (origin method_name : string) :
  (hasPermission origin method_name = true
   ↔ ∃ methods, originPermissions !! origin = Some methods
                ∧ method_name ∈ methods)
  ∧ (hasPermission origin method_name = false
     ↔ ∀ methods, originPermissions !! origin = Some methods
                  → method_name ∉ methods)
  ∧ (originPermissions !! origin = None
     → hasPermission origin method_name = false)
  ∧ (origin ∉ [ "metamask"; "http://localhost:8000";
                "https://metamask.github.io" ]
     → hasPermission origin method_name = false)
  ∧ hasPermission "" method_name = false.
Proof.
  unfold hasPermission. repeat split.
  - destruct (originPermissions !! origin) as [ms|] eqn:E; [|discriminate].
    intros H. exists ms. split; [reflexivity | now apply includes_elem_of].
  - intros (ms & -> & Hin). now apply includes_elem_of.
  - destruct (originPermissions !! origin) as [ms|] eqn:E.
    + intros H ms' [= <-]. now apply includes_not_elem_of.
    + intros _ ms' [=].
  - destruct (originPermissions !! origin) as [ms|] eqn:E; [|reflexivity].
    intros H. apply includes_not_elem_of. now apply H.
  - intros ->. reflexivity.
  - intros Hnot. rewrite originPermissions_unknown; [reflexivity| | |];
      intros ->; apply Hnot; set_solver.
Qed.

(** ** Unauthorized calls *)

Lemma collaborator_calls_log (message body : string) (w : World Json State) :
  collaborator_calls (record (EvLoggerDebug message body) w)
  = collaborator_calls w.
Proof.
  unfold collaborator_calls, record. simpl.
  rewrite filter_app. simpl. apply app_nil_r.
Qed.

Lemma constructed_log (message body : string) (w : World Json State) :
  constructed (record (EvLoggerDebug message body) w) = constructed w.
Proof.
  unfold constructed, record. simpl.
  rewrite omap_app. simpl. apply app_nil_r.
Qed.

Lemma onRpcRequest_unauthorized origin request w :
  hasPermission origin (method request) = false →
  onRpcRequest origin request w
  = (Rejected (Error (not_allowed origin (method request))),
     record (EvLoggerDebug
               ("RPC request (origin=" +:+ dquote +:+ origin +:+ dquote +:+ "):")
               (JSON_stringify request)) w).
Proof.
  intros H. unfold onRpcRequest, mbind, Async_bind, logger_debug, throw.
  now rewrite H.
Qed.

Lemma onKeyringRequest_unauthorized origin request w :
  hasPermission origin (method request) = false →
  onKeyringRequest origin request w
  = (Rejected (Error (not_allowed origin (method request))),
     record (EvLoggerDebug
               ("Keyring request (origin=" +:+ dquote +:+ origin +:+ dquote +:+ "):")
               (JSON_stringify request)) w).
Proof.
  intros H. unfold onKeyringRequest, mbind, Async_bind, logger_debug, throw.
  now rewrite H.
Qed.

Lemma serve_unauthorized origin request n w :
  hasPermission origin (method request) = false →
  ∃ w', serve (replicate n (onKeyringRequest origin request)) w
        = (replicate n
             (Rejected (Error (not_allowed origin (method request)))), w')
        ∧ keyring w' = keyring w
        ∧ allocated w' = allocated w
        ∧ constructed w' = constructed w
        ∧ collaborator_calls w' = collaborator_calls w.
Proof.
  intros H. revert w. induction n as [|n IH]; intros w; simpl.
  - now exists w.
  - rewrite onKeyringRequest_unauthorized by assumption.
    destruct (IH (record (EvLoggerDebug
               ("Keyring request (origin=" +:+ dquote +:+ origin +:+ dquote +:+ "):")
               (JSON_stringify request)) w))
      as (w' & -> & Hk & Ha & Hc & Hcc).
    exists w'. split; [reflexivity|].
    rewrite Hk, Ha, Hc, Hcc, constructed_log, collaborator_calls_log.
    now repeat split.
Qed.

(** C2.  When the permission check fails, either handler rejects with an
    error whose message names the origin and the method, and the only call
    it has made is the debug log written before the check: the [keyring]
    variable is untouched, nothing is allocated, and no call to the
    persistence, entropy or keyring collaborators is added to the trace.
    The same holds after any number of such calls to [onKeyringRequest];
    from the freshly loaded module no [SimpleKeyring] is ever built. *)
Theorem unauthorized_rejected_before_any_effect
    (origin : string) (request : JsonRpcRequest Json) (w : World Json State) :
  hasPermission origin (method request) = false →
  let refusal : Outcome Json Json :=
    Rejected (Error ("Origin '" +:+ origin +:+ "' is not allowed to call '"
                     +:+ method request +:+ "'")) in
  (∃ w', onRpcRequest origin request w = (refusal, w')
         ∧ keyring w' = keyring w ∧ allocated w' = allocated w
         ∧ collaborator_calls w' = collaborator_calls w)
  ∧ (∃ w', onKeyringRequest origin request w = (refusal, w')
           ∧ keyring w' = keyring w ∧ allocated w' = allocated w
           ∧ collaborator_calls w' = collaborator_calls w)
  ∧ (∀ n, ∃ w', serve (replicate n (onKeyringRequest origin request)) w
                = (replicate n refusal, w')
                ∧ keyring w' = keyring w
                ∧ constructed w' = constructed w
                ∧ collaborator_calls w' = collaborator_calls w)
  ∧ (∀ n, let w' := (serve (replicate n (onKeyringRequest origin request))
                           boot).2 in
          keyring w' = None ∧ constructed w' = []
          ∧ collaborator_calls w' = []).
Proof.
  intros H refusal. repeat split.
  - eexists. rewrite onRpcRequest_unauthorized by assumption.
    split; [reflexivity|]. now rewrite collaborator_calls_log.
  - eexists. rewrite onKeyringRequest_unauthorized by assumption.
    split; [reflexivity|]. now rewrite collaborator_calls_log.
  - intros n. destruct (serve_unauthorized origin request n w H)
      as (w' & E & Hk & _ & Hc & Hcc).
    exists w'. now rewrite E.
  - destruct (serve_unauthorized origin request n boot H)
      as (w' & E & Hk & _ & Hc & Hcc). now rewrite E.
  - destruct (serve_unauthorized origin request n boot H)
      as (w' & E & Hk & _ & Hc & Hcc). now rewrite E.
  - destruct (serve_unauthorized origin request n boot H)
      as (w' & E & Hk & _ & Hc & Hcc). now rewrite E.
Qed.


(** C10.  For an unauthorized call both handlers reject with a plain
    [Error] (not a [MethodNotSupportedError], and the model has no class
    of authorization errors), whose message is
    [Origin '<origin>' is not allowed to call '<method>']; the two
    rejections are equal. *)
Theorem unauthorized_error_is_plain_and_shared
    (origin : string) (request : JsonRpcRequest Json) (w : World Json State) :
  hasPermission origin (method request) = false →
  (onRpcRequest origin request w).1
  = Rejected (Error ("Origin '" +:+ origin +:+ "' is not allowed to call '"
                     +:+ method request +:+ "'"))
  ∧ (onKeyringRequest origin request w).1
    = Rejected (Error ("Origin '" +:+ origin +:+ "' is not allowed to call '"
                       +:+ method request +:+ "'"))
  ∧ (onRpcRequest origin request w).1 = (onKeyringRequest origin request w).1
  ∧ (∀ m, (onRpcRequest origin request w).1
          ≠ Rejected (MethodNotSupportedError m))
  ∧ (∀ m, (onKeyringRequest origin request w).1
          ≠ Rejected (MethodNotSupportedError m)).
Proof.
  intros H.
  rewrite onRpcRequest_unauthorized, onKeyringRequest_unauthorized
    by assumption.
  simpl. repeat split; intros m; discriminate.
Qed.

(** ** Authorized calls *)

Lemma getKeyring_resolved_cached (w w' : World Json State) (k : SimpleKeyring State) :
  getKeyring w = (Resolved k, w') → keyring w' = Some k.
Proof.
  unfold getKeyring, getKeyring_enter, getKeyring_resume.
  destruct (keyring w) as [k0|] eqn:E; simpl.
  - intros [= <- <-]. assumption.
  - rewrite E. destruct (getState_reply (trace w)); simpl; [|discriminate].
    intros [= <- <-]. reflexivity.
Qed.

(** C6.  An authorized call of [onRpcRequest] whose method is none of the
    three custom methods is rejected with a [MethodNotSupportedError]
    carrying the method; nothing but the debug log has been called, so a
    keyring method sent here is not passed to the keyring. *)
Theorem onRpcRequest_unmatched_method_not_supported
    (origin : string) (request : JsonRpcRequest Json) (w : World Json State) :
  hasPermission origin (method request) = true →
  method request ∉ [ InternalMethod.ToggleSyncApprovals;
                     InternalMethod.IsSynchronousMode;
                     InternalMethod.CreateAccountWithPrivateKey ] →
  ∃ w', onRpcRequest origin request w
        = (Rejected (MethodNotSupportedError (method request)), w')
        ∧ keyring w' = keyring w
        ∧ collaborator_calls w' = collaborator_calls w.
Proof.
  intros Hp Hm. unfold onRpcRequest, mbind, Async_bind, logger_debug, throw.
  rewrite Hp. simpl negb. cbv iota.
  destruct (String.eqb_spec (method request)
              InternalMethod.ToggleSyncApprovals) as [E|_];
    [exfalso; apply Hm; rewrite E; set_solver|].
  destruct (String.eqb_spec (method request)
              InternalMethod.IsSynchronousMode) as [E|_];
    [exfalso; apply Hm; rewrite E; set_solver|].
  destruct (String.eqb_spec (method request)
              InternalMethod.CreateAccountWithPrivateKey) as [E|_];
    [exfalso; apply Hm; rewrite E; set_solver|].
  eexists. split; [reflexivity|].
  split; [reflexivity | apply collaborator_calls_log].
Qed.

(** C7.  An authorized call of [onKeyringRequest] gets the keyring from
    [getKeyring] and hands it, with the request as received, to
    [handleKeyringRequest]; the handler's outcome is that call's outcome,
    whatever the method.  A failure of [getKeyring] is passed on. *)
Theorem onKeyringRequest_forwards_request
    (origin : string) (request : JsonRpcRequest Json) (w : World Json State) :
  hasPermission origin (method request) = true →
  let logged :=
    record (EvLoggerDebug
              ("Keyring request (origin=" +:+ dquote +:+ origin +:+ dquote
               +:+ "):")
              (JSON_stringify request)) w in
  match getKeyring logged with
  | (Resolved k, w1) =>
      keyring w1 = Some k
      ∧ onKeyringRequest origin request w
        = (handleKeyringRequest_reply (trace w1) k request,
           record (EvHandleKeyringRequest k request) w1)
  | (Rejected e, w1) =>
      onKeyringRequest origin request w = (Rejected e, w1)
  end.
Proof.
  intros Hp logged.
  unfold onKeyringRequest, mbind, Async_bind, logger_debug, throw, call.
  rewrite Hp. cbn [negb]. cbv beta iota. fold logged.
  destruct (getKeyring logged) as [[k|e] w1] eqn:E; [|reflexivity].
  split; [eapply getKeyring_resolved_cached; eassumption | reflexivity].
Qed.

Lemma getKeyring_trace (w : World Json State) :
  ∃ rest, trace (getKeyring w).2 = (trace w ++ rest)%list.
Proof.
  unfold getKeyring, getKeyring_enter, getKeyring_resume.
  destruct (keyring w) as [k0|] eqn:E; simpl.
  - exists []. now rewrite app_nil_r.
  - rewrite E. destruct (getState_reply (trace w)); simpl.
    + eexists. rewrite <- app_assoc. reflexivity.
    + eexists. reflexivity.
Qed.

Lemma github_may_create_with_private_key :
  hasPermission "https://metamask.github.io"
                InternalMethod.CreateAccountWithPrivateKey = true.
Proof.
  unfold hasPermission. rewrite originPermissions_github.
  apply includes_elem_of. unfold github_methods. set_solver.
Qed.

(** C3 (what the code does).  For the call of
    [snap.internal.createAccountWithPrivateKey] from
    [https://metamask.github.io], the first call after the debug log is
    the entropy request, and its parameters are [{ version: 1 }]: no salt
    is sent, so the label "Signing key" of the function's documentation
    never reaches the host.  When the host answers, the answer goes
    through [remove0x] and, with the keyring at hand, is the [privateKey]
    given to [createAccount], whose outcome is the handler's. *)
Theorem createAccountWithPrivateKey_requests_entropy_without_salt
    (i : Json) (p : option Json) (w : World Json State) :
  let request :=
    {| req_id := i;
       method := InternalMethod.CreateAccountWithPrivateKey;
       params := p |} in
  let entropy_request :=
    {| snap_method := "snap_getEntropy";
       snap_params := {| version := 1; salt := None |} |} in
  let run := onRpcRequest "https://metamask.github.io" request w in
  salt (snap_params entropy_request) ≠ Some "Signing key"
  ∧ (∃ message body rest,
       trace run.2
       = (trace w
            ++ EvLoggerDebug message body
            :: EvSnapRequest entropy_request :: rest)%list)
  ∧ (∀ entropy k w1,
       snap_request_reply (trace w ++ [EvLoggerDebug
          ("RPC request (origin=" +:+ dquote +:+ "https://metamask.github.io"
           +:+ dquote +:+ "):") (JSON_stringify request)])
         entropy_request = Resolved entropy →
       getKeyring
         (record (EvSnapRequest entropy_request)
            (record (EvLoggerDebug
               ("RPC request (origin=" +:+ dquote
                +:+ "https://metamask.github.io" +:+ dquote +:+ "):")
               (JSON_stringify request)) w))
       = (Resolved k, w1) →
       run = (createAccount_reply (trace w1) k
                {| privateKey := remove0x entropy |},
              record (EvCreateAccount k {| privateKey := remove0x entropy |})
                     w1)).
Proof.
  intros request entropy_request run.
  split; [discriminate|].
  subst run. unfold onRpcRequest.
  unfold mbind at 1. unfold Async_bind at 1. unfold logger_debug.
  change (method request) with InternalMethod.CreateAccountWithPrivateKey.
  rewrite github_may_create_with_private_key.
  change (String.eqb InternalMethod.CreateAccountWithPrivateKey
            InternalMethod.ToggleSyncApprovals) with false.
  change (String.eqb InternalMethod.CreateAccountWithPrivateKey
            InternalMethod.IsSynchronousMode) with false.
  change (String.eqb InternalMethod.CreateAccountWithPrivateKey
            InternalMethod.CreateAccountWithPrivateKey) with true.
  simpl negb. cbv iota.
  unfold getEntropy, mbind, Async_bind, mret, Async_ret, call.
  fold entropy_request. simpl trace.
  split.
  - do 2 eexists.
    destruct (snap_request_reply _ entropy_request) as [entropy|e].
    + match goal with |- context [getKeyring ?W] =>
        destruct (getKeyring_trace W) as [rest Hrest];
        destruct (getKeyring W) as [[k|e] w1]
      end; simpl in Hrest; simpl; rewrite Hrest;
        eexists; rewrite <- !app_assoc; simpl; reflexivity.
    + simpl. eexists. rewrite <- !app_assoc. simpl. reflexivity.
  - intros entropy k w1 Hs Hk. rewrite Hs.
    unfold record at 1 2 in Hk. simpl in Hk. unfold record at 1 2. simpl.
    rewrite Hk. reflexivity.
Qed.


(** X1.  The two custom methods that only read or flip the approval mode:
    an
    authorized call gets the keyring and returns what the keyring's method
    returns; no entropy is requested. *)
Theorem onRpcRequest_mode_methods_use_keyring_only
    (origin : string) (request : JsonRpcRequest Json) (w : World Json State) :
  hasPermission origin (method request) = true →
  method request ∈ [ InternalMethod.ToggleSyncApprovals;
                     InternalMethod.IsSynchronousMode ] →
  let logged :=
    record (EvLoggerDebug
              ("RPC request (origin=" +:+ dquote +:+ origin +:+ dquote
               +:+ "):")
              (JSON_stringify request)) w in
  match getKeyring logged with
  | (Resolved k, w1) =>
      onRpcRequest origin request w
      = (if String.eqb (method request) InternalMethod.ToggleSyncApprovals
         then (toggleSyncApprovals_reply (trace w1) k,
               record (EvToggleSyncApprovals k) w1)
         else (isSynchronousMode_reply (trace w1) k,
               record (EvIsSynchronousMode k) w1))
  | (Rejected e, w1) => onRpcRequest origin request w = (Rejected e, w1)
  end.
Proof.
  intros Hp Hm logged.
  unfold onRpcRequest, mbind, Async_bind, logger_debug, throw, call.
  rewrite Hp. cbn [negb]. cbv beta iota. fold logged.
  rewrite !elem_of_cons in Hm. destruct Hm as [Hm|[Hm|Hm]].
  - rewrite Hm.
    change (String.eqb InternalMethod.ToggleSyncApprovals
              InternalMethod.ToggleSyncApprovals) with true.
    cbv beta iota. now destruct (getKeyring logged) as [[k|e] w1].
  - rewrite Hm.
    change (String.eqb InternalMethod.IsSynchronousMode
              InternalMethod.ToggleSyncApprovals) with false.
    change (String.eqb InternalMethod.IsSynchronousMode
              InternalMethod.IsSynchronousMode) with true.
    cbv beta iota. now destruct (getKeyring logged) as [[k|e] w1].
  - now apply elem_of_nil in Hm.
Qed.

(** ** The contents of the table *)

Lemma metamask_may_not_create_account :
  Inj (=) (=) rpcName →
  hasPermission "metamask" (rpcName KeyringRpcMethod.CreateAccount) = false.
Proof.
  intros Hinj. unfold hasPermission. rewrite originPermissions_metamask.
  apply includes_not_elem_of. unfold metamask_methods.
  rewrite !not_elem_of_cons. repeat split;
    try (intros E; apply Hinj in E; discriminate).
  apply not_elem_of_nil.
Qed.

(** C5.  The table has the three origins [metamask],
    [http://localhost:8000] and [https://metamask.github.io] and no other.
    [metamask] is given list/get/filter-chains/delete account and
    list/get/submit/reject request; each of the other two is given
    list/get/create/filter-chains/update/delete/export account,
    list/get/approve/reject request and the three custom methods.  The
    members of the imported enum having distinct values, [CreateAccount]
    from [metamask] is refused by both handlers with the authorization
    error. *)
Theorem originPermissions_contents :
  Inj (=) (=) rpcName →
  dom originPermissions
  = ({[ "metamask"; "http://localhost:8000"; "https://metamask.github.io" ]}
       : gset string)
  ∧ originPermissions !! "metamask"
    = Some (rpcName <$>
              [ KeyringRpcMethod.ListAccounts; KeyringRpcMethod.GetAccount;
                KeyringRpcMethod.FilterAccountChains;
                KeyringRpcMethod.DeleteAccount;
                KeyringRpcMethod.ListRequests; KeyringRpcMethod.GetRequest;
                KeyringRpcMethod.SubmitRequest;
                KeyringRpcMethod.RejectRequest ])
  ∧ (∀ origin,
       origin ∈ [ "http://localhost:8000"; "https://metamask.github.io" ] →
       originPermissions !! origin
       = Some ((rpcName <$>
                  [ KeyringRpcMethod.ListAccounts; KeyringRpcMethod.GetAccount;
                    KeyringRpcMethod.CreateAccount;
                    KeyringRpcMethod.FilterAccountChains;
                    KeyringRpcMethod.UpdateAccount;
                    KeyringRpcMethod.DeleteAccount;
                    KeyringRpcMethod.ExportAccount;
                    KeyringRpcMethod.ListRequests; KeyringRpcMethod.GetRequest;
                    KeyringRpcMethod.ApproveRequest;
                    KeyringRpcMethod.RejectRequest ])
                 ++ [ "snap.internal.toggleSynchronousApprovals";
                      "snap.internal.isSynchronousMode";
                      "snap.internal.createAccountWithPrivateKey" ])%list)
  ∧ hasPermission "metamask" (rpcName KeyringRpcMethod.CreateAccount) = false
  ∧ (∀ (request : JsonRpcRequest Json) (w : World Json State),
       method request = rpcName KeyringRpcMethod.CreateAccount →
       (onRpcRequest "metamask" request w).1
       = Rejected (Error (not_allowed "metamask" (method request)))
       ∧ (onKeyringRequest "metamask" request w).1
         = Rejected (Error (not_allowed "metamask" (method request)))).
Proof.
  intros Hinj. split; [apply originPermissions_dom|].
  split; [reflexivity|].
  split.
  { intros origin Ho. rewrite !elem_of_cons in Ho.
    destruct Ho as [->|[->|Ho]]; [reflexivity | reflexivity |].
    now apply elem_of_nil in Ho. }
  split; [now apply metamask_may_not_create_account|].
  intros request w Hm.
  rewrite onRpcRequest_unauthorized, onKeyringRequest_unauthorized
    by (rewrite Hm; now apply metamask_may_not_create_account).
  split; reflexivity.
Qed.

(** ** The keyring singleton *)

Lemma constructed_record_load (w : World Json State) :
  constructed (record EvGetState w) = constructed w.
Proof.
  unfold constructed, record. simpl. rewrite omap_app. apply app_nil_r.
Qed.

Lemma started_coherent :
  coherent (started (Json:=Json) (State:=State)).
Proof.
  unfold coherent, started. simpl. split; [reflexivity|].
  intros i k. rewrite lookup_empty. discriminate.
Qed.

Lemma step_coherent (s : System Json State) (a : Action Json State) :
  coherent s → coherent (step s a).
Proof.
  unfold coherent. intros H. destruct a as [i|i loaded]; simpl.
  - destruct (tasks s !! i) as [t|] eqn:Ei; [exact H|].
    unfold getKeyring_enter.
    destruct (keyring (world s)) as [k|] eqn:Ek; simpl.
    + rewrite Ek. destruct H as [Hc Ht]. split; [exact Hc|].
      intros j k'. destruct (decide (i = j)) as [->|Hne].
      * rewrite lookup_insert_eq. now intros [= ->].
      * rewrite lookup_insert_ne by assumption. apply Ht.
    + rewrite Ek, constructed_record_load. destruct H as [Hc Ht].
      split; [exact Hc|].
      intros j k'. destruct (decide (i = j)) as [->|Hne].
      * rewrite lookup_insert_eq. discriminate.
      * rewrite lookup_insert_ne by assumption. apply Ht.
  - destruct (tasks s !! i) as [[|r]|] eqn:Ei; try exact H.
    unfold getKeyring_resume. destruct loaded as [state|e].
    + destruct (keyring (world s)) as [k|] eqn:Ek; simpl.
      * rewrite Ek. destruct H as [Hc Ht]. split; [exact Hc|].
        intros j k'. destruct (decide (i = j)) as [->|Hne].
        -- rewrite lookup_insert_eq. now intros [= ->].
        -- rewrite lookup_insert_ne by assumption. apply Ht.
      * destruct H as [Hc Ht]. split.
        -- unfold constructed in *. simpl. rewrite omap_app, Hc. reflexivity.
        -- intros j k'. destruct (decide (i = j)) as [->|Hne].
           ++ rewrite lookup_insert_eq. now intros [= ->].
           ++ rewrite lookup_insert_ne by assumption.
              intros Hj. now apply Ht in Hj.
    + simpl. destruct (keyring (world s)) as [k|] eqn:Ek;
        destruct H as [Hc Ht]; (split; [exact Hc|]);
        intros j k'; (destruct (decide (i = j)) as [->|Hne];
          [rewrite lookup_insert_eq; discriminate
          |rewrite lookup_insert_ne by assumption; apply Ht]).
Qed.

Lemma run_coherent (schedule : list (Action Json State)) (s : System Json State) :
  coherent s → coherent (run s schedule).
Proof.
  revert s. induction schedule as [|a schedule IH]; intros s H; simpl.
  - exact H.
  - apply IH. now apply step_coherent.
Qed.

Lemma coherent_at_most_one (s : System Json State) :
  coherent s → (length (constructed (world s)) ≤ 1)%nat.
Proof.
  unfold coherent. destruct (keyring (world s)); intros [-> _]; simpl; lia.
Qed.

Lemma coherent_settled_is_cached (s : System Json State) i k :
  coherent s →
  tasks s !! i = Some (Settled (Resolved k)) →
  keyring (world s) = Some k ∧ constructed (world s) = [k].
Proof.
  unfold coherent. destruct (keyring (world s)) as [k0|].
  - intros [Hc Ht] Hi. apply Ht in Hi. now subst.
  - intros [_ Ht] Hi. now apply Ht in Hi.
Qed.

Lemma step_keeps_cache (s : System Json State) (a : Action Json State) (k : SimpleKeyring State) :
  keyring (world s) = Some k → keyring (world (step s a)) = Some k.
Proof.
  intros Hk. destruct a as [i|i loaded]; simpl.
  - destruct (tasks s !! i); [exact Hk|].
    unfold getKeyring_enter. now rewrite Hk.
  - destruct (tasks s !! i) as [[|r]|]; try exact Hk.
    unfold getKeyring_resume. destruct loaded; [rewrite Hk|]; exact Hk.
Qed.

Lemma run_keeps_cache (schedule : list (Action Json State)) (s : System Json State) k :
  keyring (world s) = Some k → keyring (world (run s schedule)) = Some k.
Proof.
  revert s. induction schedule as [|a schedule IH]; intros s H; simpl.
  - exact H.
  - apply IH. now apply step_keeps_cache.
Qed.


(** C8.  When the [keyring] variable is empty and the state fails to
    load, [getKeyring] rejects with the failure it received and leaves the
    variable empty: nothing is allocated or built.  The next call starts
    over: it calls [getState] again and, if that succeeds, builds the
    keyring from the state just loaded; if it fails again, it rejects
    again.  A parked call resumed with a failure settles with it and
    leaves the world as it was. *)
Theorem getKeyring_load_failure_leaves_cache_empty (w : World Json State) (e : Thrown Json) :
  keyring w = None →
  getState_reply (trace w) = Rejected e →
  let w' := record EvGetState w in
  getKeyring w = (Rejected e, w')
  ∧ keyring w' = None
  ∧ allocated w' = allocated w
  ∧ constructed w' = constructed w
  ∧ (∀ state, getState_reply (trace w') = Resolved state →
       let k := {| kr_address := allocated w; kr_state := state |} in
       getKeyring w'
       = (Resolved k,
          {| keyring := Some k; allocated := S (allocated w);
             trace := trace w' ++ [EvGetState; EvNewSimpleKeyring k] |}))
  ∧ (∀ e', getState_reply (trace w') = Rejected e' →
       getKeyring w' = (Rejected e', record EvGetState w'))
  ∧ (∀ (s : System Json State) i, tasks s !! i = Some Suspended →
       step s (Resume i (Rejected e))
       = {| world := world s;
            tasks := <[i := Settled (Rejected e)]> (tasks s) |}).
Proof.
  intros Hk He w'.
  assert (Hk' : keyring w' = None) by exact Hk.
  split.
  { unfold getKeyring, getKeyring_enter. rewrite Hk, He. reflexivity. }
  split; [exact Hk'|]. split; [reflexivity|].
  split; [apply constructed_record_load|].
  split.
  { intros state Hs k. unfold getKeyring, getKeyring_enter.
    rewrite Hk', Hs. unfold getKeyring_resume. simpl. rewrite Hk.
    rewrite <- !app_assoc. reflexivity. }
  split.
  { intros e' He'. unfold getKeyring, getKeyring_enter.
    rewrite Hk', He'. reflexivity. }
  intros s i Hi. simpl. rewrite Hi. reflexivity.
Qed.





(** C9.  Take two calls of [getKeyring], both made while the [keyring]
    variable is empty and both parked before either is resumed, and any
    order of their four segments.  The state is loaded twice, yet at no
    point of the schedule has more than one [SimpleKeyring] been built; a
    call that resolves, resolves to the object in the variable, the only
    one built; and when both loads succeed both calls resolve to that same
    object. *)
Theorem overlapping_first_calls_share_one_keyring
    (o0 o1 : Outcome Json State) (schedule : list (Action Json State)) :
  schedule ∈ interleavings [Call 0; Resume 0 o0] [Call 1; Resume 1 o1] →
  overlapping schedule = true →
  let s := run started schedule in
  loads (world s) = 2
  ∧ (∀ before after, schedule = (before ++ after)%list →
       (length (constructed (world (run started before))) ≤ 1)%nat)
  ∧ (∀ i k, tasks s !! i = Some (Settled (Resolved k)) →
       keyring (world s) = Some k ∧ constructed (world s) = [k])
  ∧ (∀ state0 state1, o0 = Resolved state0 → o1 = Resolved state1 →
       ∃ k, tasks s !! 0 = Some (Settled (Resolved k))
            ∧ tasks s !! 1 = Some (Settled (Resolved k))
            ∧ keyring (world s) = Some k
            ∧ constructed (world s) = [k]
            ∧ (kr_state k = state0 ∨ kr_state k = state1)).
Proof.
  intros Hin Hov s.
  assert (Hc : coherent s) by (apply run_coherent, started_coherent).
  split.
  { subst s. simpl in Hin. rewrite !elem_of_cons in Hin.
    destruct Hin as [->|[->|[->|[->|[->|[->|Hin]]]]]];
      try discriminate Hov; try (now apply elem_of_nil in Hin);
      destruct o0, o1; reflexivity. }
  split.
  { intros before after _. apply coherent_at_most_one.
    apply run_coherent, started_coherent. }
  split.
  { intros i k Hi. now apply (coherent_settled_is_cached s i k). }
  intros state0 state1 -> ->. subst s. simpl in Hin.
  rewrite !elem_of_cons in Hin.
  destruct Hin as [->|[->|[->|[->|[->|[->|Hin]]]]]];
    try discriminate Hov; try (now apply elem_of_nil in Hin);
    eexists; (split; [reflexivity|]); (split; [reflexivity|]);
    (split; [reflexivity|]); (split; [reflexivity|]); simpl; auto.
Qed.

(** * Further properties *)

(** ** The shape of the table *)

Lemma hasPermission_by_origin (origin method_name : string) :
  hasPermission origin method_name
  = if decide (origin = "metamask") then includes metamask_methods method_name
    else if decide (origin = "http://localhost:8000")
         then includes localhost_methods method_name
    else if decide (origin = "https://metamask.github.io")
         then includes github_methods method_name
    else false.
Proof.
  unfold hasPermission.
  destruct (decide (origin = "metamask")) as [->|H1]; [reflexivity|].
  destruct (decide (origin = "http://localhost:8000")) as [->|H2];
    [reflexivity|].
  destruct (decide (origin = "https://metamask.github.io")) as [->|H3];
    [reflexivity|].
  now rewrite originPermissions_unknown.
Qed.

(** X2.  Whatever is permitted is a method of the keyring protocol or one
    of the three custom methods, and is permitted to one of the three
    configured origins: no other name can pass the check. *)
Theorem hasPermission_closed_world (origin method_name : string) :
  hasPermission origin method_name = true →
  origin ∈ [ "metamask"; "http://localhost:8000";
             "https://metamask.github.io" ]
  ∧ (method_name ∈ rpcName <$> KeyringRpcMethod.all
     ∨ method_name ∈ [ InternalMethod.ToggleSyncApprovals;
                       InternalMethod.IsSynchronousMode;
                       InternalMethod.CreateAccountWithPrivateKey ]).
Proof.
  rewrite hasPermission_by_origin.
  repeat case_decide; subst; try discriminate;
    intros Hin%includes_elem_of;
    (split; [rewrite !elem_of_cons; auto|]);
    cbn [fmap list_fmap KeyringRpcMethod.all];
    repeat (apply elem_of_cons in Hin as [->|Hin]);
    try (left; rewrite !elem_of_cons; tauto);
    try (right; rewrite !elem_of_cons; tauto);
    now apply elem_of_nil in Hin.
Qed.

(** X3.  The two development origins are given the same methods, and
    everything [metamask] may call, [SubmitRequest] apart, they may call
    too. *)
Theorem development_origins_share_permissions (method_name : string) :
  hasPermission "http://localhost:8000" method_name
  = hasPermission "https://metamask.github.io" method_name
  ∧ (hasPermission "metamask" method_name = true →
     method_name = rpcName KeyringRpcMethod.SubmitRequest
     ∨ hasPermission "http://localhost:8000" method_name = true).
Proof.
  split; [reflexivity|].
  unfold hasPermission.
  rewrite originPermissions_metamask, originPermissions_localhost.
  rewrite !includes_elem_of. unfold metamask_methods, localhost_methods.
  intros H. repeat (apply elem_of_cons in H as [->|H]);
    try (right; rewrite !elem_of_cons; tauto);
    try (now left);
    now apply elem_of_nil in H.
Qed.

Section DistinctNames.
(** The members of the imported enum have distinct values, none of them
    the name of a custom method. *)
Hypothesis rpcName_inj : Inj (=) (=) rpcName.
Hypothesis rpcName_not_custom :
  ∀ r, rpcName r ∉ [ InternalMethod.ToggleSyncApprovals;
                     InternalMethod.IsSynchronousMode;
                     InternalMethod.CreateAccountWithPrivateKey ].

Lemma rpcName_elem_of (r : KeyringRpcMethod.t) (l : list KeyringRpcMethod.t)
    (customs : list string) :
  customs ⊆ [ InternalMethod.ToggleSyncApprovals;
              InternalMethod.IsSynchronousMode;
              InternalMethod.CreateAccountWithPrivateKey ] →
  rpcName r ∈ ((rpcName <$> l) ++ customs)%list ↔ r ∈ l.
Proof using rpcName_inj rpcName_not_custom.
  intros Hsub. rewrite elem_of_app, list_elem_of_fmap. split.
  - intros [(r' & E & Hr')|Hc].
    + apply rpcName_inj in E. now subst.
    + exfalso. apply (rpcName_not_custom r). now apply Hsub.
  - intros Hr. left. now exists r.
Qed.

Lemma hasPermission_rpcName (origin : string) (r : KeyringRpcMethod.t) :
  hasPermission origin (rpcName r) = true
  ↔ (origin = "metamask"
     ∧ r ∈ [ KeyringRpcMethod.ListAccounts; KeyringRpcMethod.GetAccount;
             KeyringRpcMethod.FilterAccountChains;
             KeyringRpcMethod.DeleteAccount;
             KeyringRpcMethod.ListRequests; KeyringRpcMethod.GetRequest;
             KeyringRpcMethod.SubmitRequest; KeyringRpcMethod.RejectRequest ])
    ∨ (origin ∈ [ "http://localhost:8000"; "https://metamask.github.io" ]
       ∧ r ∈ [ KeyringRpcMethod.ListAccounts; KeyringRpcMethod.GetAccount;
               KeyringRpcMethod.CreateAccount;
               KeyringRpcMethod.FilterAccountChains;
               KeyringRpcMethod.UpdateAccount; KeyringRpcMethod.DeleteAccount;
               KeyringRpcMethod.ExportAccount;
               KeyringRpcMethod.ListRequests; KeyringRpcMethod.GetRequest;
               KeyringRpcMethod.ApproveRequest;
               KeyringRpcMethod.RejectRequest ]).
Proof using rpcName_inj rpcName_not_custom.
  rewrite hasPermission_by_origin.
  destruct (decide (origin = "metamask")) as [->|H1].
  { rewrite includes_elem_of.
    change metamask_methods with
      ((rpcName <$>
          [ KeyringRpcMethod.ListAccounts; KeyringRpcMethod.GetAccount;
            KeyringRpcMethod.FilterAccountChains;
            KeyringRpcMethod.DeleteAccount;
            KeyringRpcMethod.ListRequests; KeyringRpcMethod.GetRequest;
            KeyringRpcMethod.SubmitRequest; KeyringRpcMethod.RejectRequest ])
         ++ [])%list.
    rewrite rpcName_elem_of by (intros x Hx; now apply elem_of_nil in Hx).
    split; [now left|]. intros [[_ H]|[H _]]; [exact H|].
    rewrite !elem_of_cons in H. destruct H as [H|[H|H]]; try discriminate.
    now apply elem_of_nil in H. }
  assert (Hdev : ∀ l,
    l = localhost_methods →
    (includes l (rpcName r) = true
     ↔ r ∈ [ KeyringRpcMethod.ListAccounts; KeyringRpcMethod.GetAccount;
             KeyringRpcMethod.CreateAccount;
             KeyringRpcMethod.FilterAccountChains;
             KeyringRpcMethod.UpdateAccount; KeyringRpcMethod.DeleteAccount;
             KeyringRpcMethod.ExportAccount;
             KeyringRpcMethod.ListRequests; KeyringRpcMethod.GetRequest;
             KeyringRpcMethod.ApproveRequest;
             KeyringRpcMethod.RejectRequest ])).
  { intros l ->. rewrite includes_elem_of.
    change localhost_methods with
      ((rpcName <$>
          [ KeyringRpcMethod.ListAccounts; KeyringRpcMethod.GetAccount;
            KeyringRpcMethod.CreateAccount;
            KeyringRpcMethod.FilterAccountChains;
            KeyringRpcMethod.UpdateAccount; KeyringRpcMethod.DeleteAccount;
            KeyringRpcMethod.ExportAccount;
            KeyringRpcMethod.ListRequests; KeyringRpcMethod.GetRequest;
            KeyringRpcMethod.ApproveRequest;
            KeyringRpcMethod.RejectRequest ])
         ++ [ InternalMethod.ToggleSyncApprovals;
              InternalMethod.IsSynchronousMode;
              InternalMethod.CreateAccountWithPrivateKey ])%list.
    now apply rpcName_elem_of. }
  destruct (decide (origin = "http://localhost:8000")) as [->|H2].
  { rewrite (Hdev _ eq_refl). split.
    - intros H. right. split; [left|exact H].
    - intros [[H _]|[_ H]]; [discriminate H|exact H]. }
  destruct (decide (origin = "https://metamask.github.io")) as [->|H3].
  { rewrite (Hdev github_methods eq_refl). split.
    - intros H. right. split; [right; left|exact H].
    - intros [[H _]|[_ H]]; [discriminate H|exact H]. }
  split; [discriminate|].
  intros [[H _]|[H _]]; [contradiction|].
  rewrite !elem_of_cons in H. destruct H as [H|[H|H]]; try contradiction.
  now apply elem_of_nil in H.
Qed.

Lemma hasPermission_custom (origin custom : string) :
  custom ∈ [ InternalMethod.ToggleSyncApprovals;
             InternalMethod.IsSynchronousMode;
             InternalMethod.CreateAccountWithPrivateKey ] →
  hasPermission origin custom = true
  ↔ origin ∈ [ "http://localhost:8000"; "https://metamask.github.io" ].
Proof using rpcName_not_custom.
  intros Hc. rewrite hasPermission_by_origin.
  assert (Hdev : includes localhost_methods custom = true).
  { apply includes_elem_of. unfold localhost_methods.
    do 11 apply list_elem_of_further. exact Hc. }
  destruct (decide (origin = "metamask")) as [->|H1].
  { rewrite includes_elem_of. split.
    - intros H. exfalso. unfold metamask_methods in H.
      repeat (apply elem_of_cons in H as [->|H]);
        try (now apply rpcName_not_custom in Hc).
      now apply elem_of_nil in H.
    - rewrite !elem_of_cons. intros [H|[H|H]]; try discriminate.
      now apply elem_of_nil in H. }
  destruct (decide (origin = "http://localhost:8000")) as [->|H2].
  { split; [intros _; left | intros _; exact Hdev]. }
  destruct (decide (origin = "https://metamask.github.io")) as [->|H3].
  { split; [intros _; right; left | intros _; exact Hdev]. }
  split; [discriminate|].
  rewrite !elem_of_cons. intros [H|[H|H]]; try contradiction.
  now apply elem_of_nil in H.
Qed.

(** X4.  With distinct names for the protocol's methods, none of them a
    custom name, the table separates the callers: [SubmitRequest] is for
    [metamask] alone, while creating, updating and exporting accounts,
    approving requests and the three custom methods are for the two
    development origins alone.  No origin may both submit and approve. *)
Theorem submit_and_approve_are_separated (origin : string) :
  (hasPermission origin (rpcName KeyringRpcMethod.SubmitRequest) = true
   ↔ origin = "metamask")
  ∧ (∀ r, r ∈ [ KeyringRpcMethod.CreateAccount; KeyringRpcMethod.UpdateAccount;
                KeyringRpcMethod.ExportAccount;
                KeyringRpcMethod.ApproveRequest ] →
       (hasPermission origin (rpcName r) = true
        ↔ origin ∈ [ "http://localhost:8000";
                     "https://metamask.github.io" ]))
  ∧ (∀ custom, custom ∈ [ InternalMethod.ToggleSyncApprovals;
                          InternalMethod.IsSynchronousMode;
                          InternalMethod.CreateAccountWithPrivateKey ] →
       (hasPermission origin custom = true
        ↔ origin ∈ [ "http://localhost:8000";
                     "https://metamask.github.io" ]))
  ∧ ¬ (hasPermission origin (rpcName KeyringRpcMethod.SubmitRequest) = true
       ∧ hasPermission origin (rpcName KeyringRpcMethod.ApproveRequest)
         = true).
Proof using rpcName_inj rpcName_not_custom.
  assert (Hsubmit :
    hasPermission origin (rpcName KeyringRpcMethod.SubmitRequest) = true
    ↔ origin = "metamask").
  { rewrite hasPermission_rpcName. split.
    - intros [[H _]|[_ H]]; [exact H|].
      repeat (apply elem_of_cons in H as [H|H]; [discriminate H|]).
      now apply elem_of_nil in H.
    - intros ->. left. split; [reflexivity|].
      do 6 apply list_elem_of_further. apply list_elem_of_here. }
  assert (Hdev : ∀ r,
    r ∈ [ KeyringRpcMethod.CreateAccount; KeyringRpcMethod.UpdateAccount;
          KeyringRpcMethod.ExportAccount; KeyringRpcMethod.ApproveRequest ] →
    (hasPermission origin (rpcName r) = true
     ↔ origin ∈ [ "http://localhost:8000"; "https://metamask.github.io" ])).
  { intros r Hr. rewrite hasPermission_rpcName. split.
    - intros [[_ H]|[H _]]; [|exact H]. exfalso.
      repeat (apply elem_of_cons in Hr as [->|Hr]);
        try (repeat (apply elem_of_cons in H as [H|H]; [discriminate H|]);
             now apply elem_of_nil in H).
      now apply elem_of_nil in Hr.
    - intros Ho. right. split; [exact Ho|].
      repeat (apply elem_of_cons in Hr as [->|Hr]);
        try (rewrite !elem_of_cons; tauto);
        now apply elem_of_nil in Hr. }
  split; [exact Hsubmit|]. split; [exact Hdev|].
  split; [intros custom Hc; now apply hasPermission_custom|].
  intros [Hs Ha]. apply Hsubmit in Hs. subst origin.
  apply (Hdev KeyringRpcMethod.ApproveRequest) in Ha.
  - rewrite !elem_of_cons in Ha. destruct Ha as [H|[H|H]]; try discriminate.
    now apply elem_of_nil in H.
  - do 3 apply list_elem_of_further. apply list_elem_of_here.
Qed.


End DistinctNames.


(** ** What every handler call keeps *)

Ltac handler_unfold :=
  unfold onRpcRequest, onKeyringRequest, getEntropy, mbind, Async_bind,
    mret, Async_ret, logger_debug, throw, call;
  cbv beta.

Ltac handler_split :=
  repeat match goal with
  | |- context [if ?b then _ else _] => destruct b eqn:?
  end;
  cbv beta iota zeta;
  repeat (match goal with
  | |- context [snap_request_reply ?t ?r] =>
      destruct (snap_request_reply t r) eqn:?
  | |- context [getKeyring ?W] =>
      let E := fresh "Hget" in
      destruct (getKeyring W) as [[?k|?e] ?w] eqn:E
  end; cbv beta iota zeta);
  cbn [fst snd].

Ltac handler_cases := handler_unfold; handler_split.

Lemma constructed_record (e : Event Json State) (w : World Json State) :
  constructed (record e w) = (constructed w ++ option_list (built e))%list.
Proof.
  unfold constructed, record. simpl. rewrite omap_app. simpl.
  now destruct (built e).
Qed.

Lemma keyrings_used_record (e : Event Json State) (w : World Json State) :
  keyrings_used (record e w)
  = (keyrings_used w ++ option_list (keyring_used e))%list.
Proof.
  unfold keyrings_used, record. simpl. rewrite omap_app. simpl.
  now destruct (keyring_used e).
Qed.

Lemma loads_precede_build_snoc (t : list (Event Json State)) e :
  loads_precede_build t →
  (e = EvGetState → omap built t = []) →
  loads_precede_build (t ++ [e]).
Proof.
  intros Ht He i j k Hi Hj.
  destruct (decide (i < length t)) as [Hil|Hil];
    destruct (decide (j < length t)) as [Hjl|Hjl].
  - rewrite lookup_app_l in Hi, Hj by assumption. eauto.
  - rewrite lookup_app_l in Hi by assumption.
    rewrite lookup_app_r in Hj by lia.
    apply list_lookup_singleton_Some in Hj as [_ ->].
    assert (Hk : k ∈ omap built t).
    { apply list_elem_of_omap. exists (EvNewSimpleKeyring k).
      split; [|reflexivity]. eapply list_elem_of_lookup_2. eassumption. }
    rewrite (He eq_refl) in Hk. now apply elem_of_nil in Hk.
  - lia.
  - rewrite lookup_app_r in Hi, Hj by lia.
    apply list_lookup_singleton_Some in Hi as [_ ->].
    apply list_lookup_singleton_Some in Hj as [_ [=]].
Qed.

Lemma sound_boot : sound (boot (Json:=Json) (State:=State)).
Proof.
  unfold sound, boot. simpl. split; [reflexivity|]. split.
  - intros k Hk. now apply elem_of_nil in Hk.
  - intros i j k Hi. now rewrite lookup_nil in Hi.
Qed.

Lemma sound_record (e : Event Json State) (w : World Json State) :
  sound w →
  built e = None →
  e ≠ EvGetState →
  (∀ k, keyring_used e = Some k → keyring w = Some k) →
  sound (record e w).
Proof.
  intros (Hc & Hu & Hl) Hb He Hk. unfold sound.
  rewrite constructed_record, keyrings_used_record, Hb. simpl.
  rewrite app_nil_r. split; [exact Hc|]. split.
  - intros k. rewrite elem_of_app. intros [H|H]; [now apply Hu|].
    apply Hk. destruct (keyring_used e); simpl in H.
    + apply list_elem_of_singleton in H. now subst.
    + now apply elem_of_nil in H.
  - apply loads_precede_build_snoc; [exact Hl | intros ->; contradiction].
Qed.

Lemma sound_enter (w : World Json State) :
  sound w → sound (getKeyring_enter w).2.
Proof.
  intros Hw. unfold getKeyring_enter.
  destruct (keyring w) as [k|] eqn:Ek; simpl; [exact Hw|].
  destruct Hw as (Hc & Hu & Hl). unfold sound.
  rewrite constructed_record, keyrings_used_record. simpl.
  rewrite !app_nil_r. split; [exact Hc|]. split; [exact Hu|].
  apply loads_precede_build_snoc; [exact Hl|].
  intros _. fold (constructed w). now rewrite Hc, Ek.
Qed.

Lemma sound_resume (loaded : Outcome Json State) (w : World Json State) :
  sound w → sound (getKeyring_resume loaded w).2.
Proof.
  intros Hw. unfold getKeyring_resume.
  destruct loaded as [state|e]; [|exact Hw].
  destruct (keyring w) as [k|] eqn:Ek; simpl; [exact Hw|].
  destruct Hw as (Hc & Hu & Hl). unfold sound. simpl.
  rewrite Ek in Hc. split; [|split].
  - unfold constructed in *. simpl. rewrite omap_app, Hc. reflexivity.
  - intros k. unfold keyrings_used. simpl. rewrite omap_app. simpl.
    rewrite app_nil_r. intros Hk. apply Hu in Hk. now rewrite Ek in Hk.
  - apply loads_precede_build_snoc; [exact Hl | discriminate].
Qed.

Lemma sound_getKeyring (w w' : World Json State) r :
  getKeyring w = (r, w') → sound w → sound w'.
Proof.
  unfold getKeyring. intros E Hw.
  pose proof (sound_enter w Hw) as He.
  destruct (getKeyring_enter w) as [[|r0] w0]; simpl in He.
  - pose proof (sound_resume (getState_reply (trace w)) w0 He) as Hr.
    now rewrite E in Hr.
  - injection E as _ <-. exact He.
Qed.

Ltac sound_leaf :=
  repeat first
    [ assumption
    | eapply sound_getKeyring; [eassumption|]
    | apply sound_record;
        [ | reflexivity | discriminate
          | let k := fresh "k" in
            let H := fresh "H" in
            intros k H; cbn in H;
            first [ discriminate H
                  | injection H as <-;
                    eapply getKeyring_resolved_cached; eassumption ] ] ].

Lemma sound_onRpcRequest origin request (w : World Json State) :
  sound w → sound (onRpcRequest origin request w).2.
Proof. intros Hw. handler_cases; sound_leaf. Qed.

Lemma sound_onKeyringRequest origin request (w : World Json State) :
  sound w → sound (onKeyringRequest origin request w).2.
Proof. intros Hw. handler_cases; sound_leaf. Qed.

Lemma serve_cons_world (c : Async Json State Json) calls (w : World Json State) :
  (serve (c :: calls) w).2 = (serve calls (c w).2).2.
Proof.
  simpl. destruct (c w) as [r w1]. simpl.
  now destruct (serve calls w1).
Qed.

Lemma sound_deliver (c : Invocation Json) (w : World Json State) :
  sound w → sound (deliver c w).2.
Proof.
  destruct c; simpl;
    [apply sound_onRpcRequest | apply sound_onKeyringRequest].
Qed.

Lemma sound_serve (calls : list (Invocation Json)) (w : World Json State) :
  sound w → sound (serve (deliver <$> calls) w).2.
Proof.
  revert w. induction calls as [|c calls IH]; intros w Hw.
  - exact Hw.
  - rewrite fmap_cons, serve_cons_world. apply IH. now apply sound_deliver.
Qed.

Lemma sound_step (s : System Json State) (a : Action Json State) :
  sound (world s) → sound (world (step s a)).
Proof.
  intros Hs. destruct a as [i|i loaded]; simpl.
  - destruct (tasks s !! i); [exact Hs|].
    pose proof (sound_enter _ Hs) as H.
    now destruct (getKeyring_enter (world s)).
  - destruct (tasks s !! i) as [[|r]|]; try exact Hs.
    pose proof (sound_resume loaded _ Hs) as H.
    now destruct (getKeyring_resume loaded (world s)).
Qed.

Lemma sound_run (schedule : list (Action Json State)) (s : System Json State) :
  sound (world s) → sound (world (run s schedule)).
Proof.
  revert s. induction schedule as [|a schedule IH]; intros s H; simpl.
  - exact H.
  - apply IH. now apply sound_step.
Qed.

(** X7.  However many calls of the two handlers the host delivers one
    after the other, from whichever origins and with whichever methods:
    at most one [SimpleKeyring] has been built, it is the one in the
    [keyring] variable, and every call to the keyring
    ([toggleSyncApprovals], [isSynchronousMode], [createAccount],
    [handleKeyringRequest]) was made on that one object. *)
Theorem sequential_calls_share_one_keyring (calls : list (Invocation Json)) :
  let w := (serve (deliver <$> calls) boot).2 in
  constructed w = option_list (keyring w)
  ∧ (length (constructed w) ≤ 1)%nat
  ∧ (∀ k, k ∈ keyrings_used w → keyring w = Some k ∧ constructed w = [k]).
Proof.
  intros w.
  destruct (sound_serve calls boot sound_boot) as (Hc & Hu & _).
  fold w in Hc, Hu. split; [exact Hc|]. split.
  - rewrite Hc. destruct (keyring w); simpl; lia.
  - intros k Hk. apply Hu in Hk. split; [exact Hk|].
    now rewrite Hc, Hk.
Qed.

(** X8.  The state is never loaded once the keyring has been built: in
    the trace of any schedule of overlapping [getKeyring] calls, and in
    the trace of any sequence of handler calls, every [getState] comes
    before the [new SimpleKeyring]. *)
Theorem state_is_never_loaded_after_the_build :
  (∀ schedule : list (Action Json State),
     loads_precede_build (trace (world (run started schedule))))
  ∧ (∀ calls : list (Invocation Json),
       loads_precede_build
         (trace (serve (deliver <$> calls) boot).2)).
Proof.
  split.
  - intros schedule. apply (sound_run schedule started). apply sound_boot.
  - intros calls. apply (sound_serve calls boot sound_boot).
Qed.


Lemma loads_record (e : Event Json State) (w : World Json State) :
  loads (record e w) = loads w + (if is_load e then 1 else 0).
Proof.
  unfold loads, record. simpl. rewrite filter_app, length_app.
  f_equal. unfold filter. simpl. now destruct (is_load e).
Qed.

Lemma entropy_requests_record (e : Event Json State) (w : World Json State) :
  entropy_requests (record e w)
  = entropy_requests w + (if is_entropy_request e then 1 else 0).
Proof.
  unfold entropy_requests, record. simpl. rewrite filter_app, length_app.
  f_equal. unfold filter. simpl. now destruct (is_entropy_request e).
Qed.

Lemma getKeyring_cached (w : World Json State) k :
  keyring w = Some k → getKeyring w = (Resolved k, w).
Proof. intros Hk. unfold getKeyring, getKeyring_enter. now rewrite Hk. Qed.

Lemma entropy_requests_getKeyring (w w' : World Json State) r :
  getKeyring w = (r, w') → entropy_requests w' = entropy_requests w.
Proof.
  unfold getKeyring, getKeyring_enter, getKeyring_resume.
  destruct (keyring w) as [k|] eqn:Ek; simpl; [now intros [= _ <-]|].
  rewrite Ek. destruct (getState_reply (trace w)); intros [= _ <-].
  - unfold entropy_requests. simpl. rewrite <- app_assoc.
    rewrite filter_app. simpl. now rewrite app_nil_r.
  - now rewrite entropy_requests_record, Nat.add_0_r.
Qed.

Lemma follows_refl (w : World Json State) : follows w w.
Proof. split; [exists []; now rewrite app_nil_r | now intros k Hk]. Qed.

Lemma follows_trans (w1 w2 w3 : World Json State) :
  follows w1 w2 → follows w2 w3 → follows w1 w3.
Proof.
  intros [[r1 H1] K1] [[r2 H2] K2]. split.
  - exists (r1 ++ r2)%list. now rewrite H2, H1, app_assoc.
  - intros k Hk. destruct (K1 k Hk) as (Hk2 & Ha & Hl & Hc).
    destruct (K2 k Hk2) as (Hk3 & Ha' & Hl' & Hc').
    repeat split; congruence.
Qed.

Lemma follows_record (e : Event Json State) (w : World Json State) :
  is_load e = false → built e = None → follows w (record e w).
Proof.
  intros Hl Hb. split; [now exists [e]|].
  intros k Hk. rewrite loads_record, constructed_record, Hl, Hb. simpl.
  now rewrite Nat.add_0_r, app_nil_r.
Qed.

Lemma follows_getKeyring (w w' : World Json State) r :
  getKeyring w = (r, w') → follows w w'.
Proof.
  intros E. split.
  - destruct (getKeyring_trace w) as [rest Hrest]. exists rest.
    now rewrite E in Hrest.
  - intros k Hk. rewrite (getKeyring_cached w k Hk) in E.
    injection E as _ <-. now repeat split.
Qed.

Ltac follows_leaf :=
  repeat first
    [ apply follows_refl
    | eapply follows_trans; [|apply follows_record; reflexivity]
    | eapply follows_trans; [|eapply follows_getKeyring; eassumption] ].

Lemma follows_onRpcRequest origin request (w : World Json State) :
  follows
    (record (EvLoggerDebug
               ("RPC request (origin=" +:+ dquote +:+ origin +:+ dquote
                +:+ "):")
               (JSON_stringify request)) w)
    (onRpcRequest origin request w).2.
Proof. handler_cases; follows_leaf. Qed.

Lemma follows_onKeyringRequest origin request (w : World Json State) :
  follows
    (record (EvLoggerDebug
               ("Keyring request (origin=" +:+ dquote +:+ origin +:+ dquote
                +:+ "):")
               (JSON_stringify request)) w)
    (onKeyringRequest origin request w).2.
Proof. handler_cases; follows_leaf. Qed.

Lemma follows_after_log message body (w w' : World Json State) :
  follows (record (EvLoggerDebug message body) w) w' →
  (∃ rest, trace w' = (trace w ++ EvLoggerDebug message body :: rest)%list)
  ∧ (∀ k, keyring w = Some k →
       keyring w' = Some k ∧ allocated w' = allocated w
       ∧ loads w' = loads w ∧ constructed w' = constructed w).
Proof.
  intros H.
  pose proof (follows_trans _ _ _
                (follows_record (EvLoggerDebug message body) w
                   eq_refl eq_refl) H) as [_ Hk].
  split; [|exact Hk].
  destruct H as [[rest Hrest] _]. exists rest.
  rewrite Hrest. simpl. now rewrite <- app_assoc.
Qed.

(** X6.  Every call of a handler, authorized or not, first writes the
    debug log and only adds to the trace; and a call that finds the
    keyring already built leaves it in place and neither loads the state
    nor builds anything. *)
Theorem handlers_log_first_and_keep_the_keyring
    (origin : string) (request : JsonRpcRequest Json) (w : World Json State) :
  let after_rpc := (onRpcRequest origin request w).2 in
  let after_keyring := (onKeyringRequest origin request w).2 in
  (∃ rest,
     trace after_rpc
     = (trace w
          ++ EvLoggerDebug
               ("RPC request (origin=" +:+ dquote +:+ origin +:+ dquote
                +:+ "):")
               (JSON_stringify request) :: rest)%list)
  ∧ (∃ rest,
       trace after_keyring
       = (trace w
            ++ EvLoggerDebug
                 ("Keyring request (origin=" +:+ dquote +:+ origin +:+ dquote
                  +:+ "):")
                 (JSON_stringify request) :: rest)%list)
  ∧ (∀ k, keyring w = Some k →
       (keyring after_rpc = Some k ∧ allocated after_rpc = allocated w
        ∧ loads after_rpc = loads w
        ∧ constructed after_rpc = constructed w)
       ∧ (keyring after_keyring = Some k
          ∧ allocated after_keyring = allocated w
          ∧ loads after_keyring = loads w
          ∧ constructed after_keyring = constructed w)).
Proof.
  intros after_rpc after_keyring.
  destruct (follows_after_log _ _ _ _ (follows_onRpcRequest origin request w))
    as [Ht1 Hk1].
  destruct (follows_after_log _ _ _ _
              (follows_onKeyringRequest origin request w)) as [Ht2 Hk2].
  split; [exact Ht1|]. split; [exact Ht2|].
  intros k Hk. split; [now apply Hk1 | now apply Hk2].
Qed.

(** X9.  Entropy is requested by an authorized call of
    [snap.internal.createAccountWithPrivateKey] through [onRpcRequest],
    once, and by nothing else: every other call of [onRpcRequest] and
    every call of [onKeyringRequest] leaves the number of entropy
    requests as it was. *)
Theorem entropy_is_requested_only_to_create_an_account
    (origin : string) (request : JsonRpcRequest Json) (w : World Json State) :
  entropy_requests (onKeyringRequest origin request w).2 = entropy_requests w
  ∧ entropy_requests (onRpcRequest origin request w).2
    = entropy_requests w
      + (if (hasPermission origin (method request)
             && (method request
                 =? InternalMethod.CreateAccountWithPrivateKey))%bool
         then 1 else 0).
Proof.
  split.
  - handler_cases;
      repeat first
        [ erewrite entropy_requests_getKeyring by eassumption
        | rewrite entropy_requests_record ];
      simpl; lia.
  - handler_unfold.
    destruct (hasPermission origin (method request)); cbn [negb andb];
      cbv beta iota; cbn [fst snd];
      [|rewrite entropy_requests_record; simpl; lia].
    destruct (String.eqb_spec (method request)
                InternalMethod.ToggleSyncApprovals) as [E1|_].
    { rewrite E1.
      change (InternalMethod.ToggleSyncApprovals
              =? InternalMethod.CreateAccountWithPrivateKey) with false.
      handler_split;
        repeat first
          [ erewrite entropy_requests_getKeyring by eassumption
          | rewrite entropy_requests_record ];
        simpl; lia. }
    destruct (String.eqb_spec (method request)
                InternalMethod.IsSynchronousMode) as [E2|_].
    { rewrite E2.
      change (InternalMethod.IsSynchronousMode
              =? InternalMethod.CreateAccountWithPrivateKey) with false.
      handler_split;
        repeat first
          [ erewrite entropy_requests_getKeyring by eassumption
          | rewrite entropy_requests_record ];
        simpl; lia. }
    handler_split;
      repeat first
        [ erewrite entropy_requests_getKeyring by eassumption
        | rewrite entropy_requests_record ];
      simpl; lia.
Qed.


(** X10.  In an authorized [snap.internal.createAccountWithPrivateKey]
    call the entropy comes first: when the host rejects the entropy
    request, the handler rejects with the same value, and it has neither
    touched the [keyring] variable, nor loaded the state, nor called the
    keyring.  When the entropy arrives but [getKeyring] rejects, that
    rejection is the handler's and [createAccount] is not called. *)
Theorem createAccountWithPrivateKey_failures_pass_through
    (origin : string) (request : JsonRpcRequest Json) (w : World Json State) :
  hasPermission origin (method request) = true →
  method request = InternalMethod.CreateAccountWithPrivateKey →
  let logged :=
    record (EvLoggerDebug
              ("RPC request (origin=" +:+ dquote +:+ origin +:+ dquote
               +:+ "):")
              (JSON_stringify request)) w in
  let asked :=
    {| snap_method := "snap_getEntropy";
       snap_params := {| version := 1; salt := None |} |} in
  let w' := (onRpcRequest origin request w).2 in
  (∀ e, snap_request_reply (trace logged) asked = Rejected e →
     onRpcRequest origin request w
     = (Rejected e, record (EvSnapRequest asked) logged)
     ∧ keyring w' = keyring w ∧ allocated w' = allocated w
     ∧ loads w' = loads w ∧ keyrings_used w' = keyrings_used w)
  ∧ (∀ entropy e w1,
       snap_request_reply (trace logged) asked = Resolved entropy →
       getKeyring (record (EvSnapRequest asked) logged) = (Rejected e, w1) →
       onRpcRequest origin request w = (Rejected e, w1)
       ∧ keyrings_used w' = keyrings_used w).
Proof.
  intros Hp Hm logged asked w'. subst w'.
  assert (Hrun : onRpcRequest origin request w
    = match snap_request_reply (trace logged) asked with
      | Resolved entropy =>
          match getKeyring (record (EvSnapRequest asked) logged) with
          | (Resolved k, w1) =>
              (createAccount_reply (trace w1) k
                 {| privateKey := remove0x entropy |},
               record (EvCreateAccount k
                         {| privateKey := remove0x entropy |}) w1)
          | (Rejected e, w1) => (Rejected e, w1)
          end
      | Rejected e => (Rejected e, record (EvSnapRequest asked) logged)
      end).
  { handler_unfold. rewrite Hp, Hm.
    change (InternalMethod.CreateAccountWithPrivateKey
            =? InternalMethod.ToggleSyncApprovals) with false.
    change (InternalMethod.CreateAccountWithPrivateKey
            =? InternalMethod.IsSynchronousMode) with false.
    change (InternalMethod.CreateAccountWithPrivateKey
            =? InternalMethod.CreateAccountWithPrivateKey) with true.
    cbn [negb]. cbv beta iota. fold logged. fold asked.
    destruct (snap_request_reply (trace logged) asked); [|reflexivity].
    now destruct (getKeyring (record (EvSnapRequest asked) logged))
      as [[k|e] w1]. }
  split.
  - intros e He. rewrite Hrun, He. split; [reflexivity|]. cbn [snd].
    subst logged.
    rewrite !loads_record, !keyrings_used_record. simpl.
    rewrite !Nat.add_0_r, !app_nil_r. now repeat split.
  - intros entropy e w1 Hs Hk. rewrite Hrun, Hs, Hk.
    split; [reflexivity|]. cbn [snd].
    assert (Hu : ∀ (W W' : World Json State) r,
              getKeyring W = (r, W') → keyrings_used W' = keyrings_used W).
    { clear. intros W W' r.
      unfold getKeyring, getKeyring_enter, getKeyring_resume.
      destruct (keyring W) as [k|] eqn:Ek; simpl; [now intros [= _ <-]|].
      rewrite Ek. destruct (getState_reply (trace W)); intros [= _ <-].
      - unfold keyrings_used. simpl. rewrite <- app_assoc, omap_app.
        simpl. now rewrite app_nil_r.
      - rewrite keyrings_used_record. simpl. now rewrite app_nil_r. }
    rewrite (Hu _ _ _ Hk). subst logged.
    rewrite !keyrings_used_record. simpl.
    now rewrite !app_nil_r.
Qed.

(** X5.  When no protocol method bears the name of a custom method,
    [metamask] gets nothing from [onRpcRequest]: every call is rejected
    right after the debug log, with the authorization error when the
    method is not in its list and with [MethodNotSupportedError] when it
    is; the keyring is neither built nor called. *)
Theorem metamask_gets_nothing_from_onRpcRequest
    (request : JsonRpcRequest Json) (w : World Json State) :
  (∀ r, rpcName r ∉ [ InternalMethod.ToggleSyncApprovals;
                      InternalMethod.IsSynchronousMode;
                      InternalMethod.CreateAccountWithPrivateKey ]) →
  onRpcRequest "metamask" request w
  = (Rejected
       (if hasPermission "metamask" (method request)
        then MethodNotSupportedError (method request)
        else Error (not_allowed "metamask" (method request))),
     record (EvLoggerDebug
               ("RPC request (origin=" +:+ dquote +:+ "metamask" +:+ dquote
                +:+ "):")
               (JSON_stringify request)) w).
Proof.
  intros Hnames.
  destruct (hasPermission "metamask" (method request)) eqn:Hp;
    [|now apply onRpcRequest_unauthorized].
  assert (Hnot : ∀ custom,
    custom ∈ [ InternalMethod.ToggleSyncApprovals;
               InternalMethod.IsSynchronousMode;
               InternalMethod.CreateAccountWithPrivateKey ] →
    method request ≠ custom).
  { intros custom Hc E. rewrite E in Hp.
    apply (hasPermission_custom Hnames _ _ Hc) in Hp.
    rewrite !elem_of_cons in Hp. destruct Hp as [H|[H|H]]; try discriminate.
    now apply elem_of_nil in H. }
  handler_unfold. rewrite Hp. cbn [negb]. cbv beta iota.
  destruct (String.eqb_spec (method request)
              InternalMethod.ToggleSyncApprovals) as [E|_].
  { exfalso. apply (Hnot _ (list_elem_of_here _ _) E). }
  destruct (String.eqb_spec (method request)
              InternalMethod.IsSynchronousMode) as [E|_].
  { exfalso. refine (Hnot _ _ E). rewrite !elem_of_cons. tauto. }
  destruct (String.eqb_spec (method request)
              InternalMethod.CreateAccountWithPrivateKey) as [E|_].
  { exfalso. refine (Hnot _ _ E). rewrite !elem_of_cons. tauto. }
  reflexivity.
Qed.

(** ** More on overlapping calls *)

Lemma run_app (s : System Json State) (l1 l2 : list (Action Json State)) :
  run s (l1 ++ l2) = run (run s l1) l2.
Proof. unfold run. apply foldl_app. Qed.

(** X11.  Among overlapping calls the first one to receive a loaded
    state decides: the keyring is built from that state, and whatever
    runs afterwards, including calls that loaded another state, the
    variable keeps that keyring and every call that resolves gets it. *)
Theorem first_loaded_state_wins
    (before after : list (Action Json State)) (i : nat) (state : State) :
  keyring (world (run started before)) = None →
  tasks (run started before) !! i = Some Suspended →
  let s := run started (before ++ Resume i (Resolved state) :: after) in
  ∃ k, kr_state k = state
       ∧ keyring (world s) = Some k
       ∧ constructed (world s) = [k]
       ∧ (∀ j k', tasks s !! j = Some (Settled (Resolved k')) → k' = k).
Proof.
  intros Hk Hi s.
  set (s0 := run started before) in *.
  set (k := {| kr_address := allocated (world s0); kr_state := state |}).
  assert (Hs1 : keyring (world (step s0 (Resume i (Resolved state))))
                = Some k).
  { simpl. rewrite Hi. unfold getKeyring_resume. now rewrite Hk. }
  assert (Hs : keyring (world s) = Some k).
  { subst s. rewrite run_app. simpl. fold s0. now apply run_keeps_cache. }
  assert (Hc : coherent s) by (apply run_coherent, started_coherent).
  unfold coherent in Hc. rewrite Hs in Hc. destruct Hc as [Hc Ht].
  exists k. now repeat split.
Qed.

Lemma loads_step (s : System Json State) (a : Action Json State) :
  (loads (world (step s a))
   ≤ loads (world s) + (if is_call a then 1 else 0))%nat.
Proof.
  destruct a as [i|i loaded]; simpl.
  - destruct (tasks s !! i); [lia|]. unfold getKeyring_enter.
    destruct (keyring (world s)); simpl; [lia|].
    rewrite loads_record. simpl. lia.
  - destruct (tasks s !! i) as [[|r]|]; try lia.
    unfold getKeyring_resume. destruct loaded; simpl; [|lia].
    destruct (keyring (world s)); simpl; [lia|].
    unfold loads. simpl. rewrite filter_app, length_app. simpl. lia.
Qed.

(** X12.  A call of [getKeyring] loads the state at most once: in any
    schedule the number of [getState] calls is at most the number of
    calls started. *)
Theorem loads_at_most_one_per_call (schedule : list (Action Json State)) :
  (loads (world (run started schedule))
   ≤ length (filter is_call schedule))%nat.
Proof.
  assert (H : ∀ (s : System Json State),
    (loads (world (run s schedule))
     ≤ loads (world s) + length (filter is_call schedule))%nat).
  { induction schedule as [|a schedule IH]; intros s; simpl; [lia|].
    specialize (IH (step s a)). pose proof (loads_step s a) as Hs.
    unfold filter. simpl. fold (filter is_call schedule).
    destruct (is_call a); simpl; lia. }
  exact (H started).
Qed.

End Properties.

(** * The properties on concrete requests *)

Lemma keyring_api_names_inj : Inj (=) (=) keyring_api_names.
Proof. intros [] [] E; (reflexivity || discriminate E). Qed.

(** The unknown origin of scenario 5, three calls in a row. *)
Lemma unauthorized_rejected_before_any_effect_witness :
  hasPermission (api:=keyring_api_names)
    "https://evil.example" (method evil_request) = false
  ∧ (onRpcRequest (api:=keyring_api_names) (host:=always_loads)
       "https://evil.example" evil_request boot).1
    = Rejected (Error
        "Origin 'https://evil.example' is not allowed to call 'keyring_listAccounts'")
  ∧ serve (replicate 3
             (onKeyringRequest (api:=keyring_api_names) (host:=always_loads)
                "https://evil.example" evil_request)) boot
    = (replicate 3 (Rejected (Error
         "Origin 'https://evil.example' is not allowed to call 'keyring_listAccounts'")),
       (serve (replicate 3
                 (onKeyringRequest (api:=keyring_api_names)
                    (host:=always_loads)
                    "https://evil.example" evil_request)) boot).2)
  ∧ constructed
      (serve (replicate 3
                (onKeyringRequest (api:=keyring_api_names)
                   (host:=always_loads)
                   "https://evil.example" evil_request)) boot).2 = [].
Proof.
  split; [reflexivity|].
  destruct (unauthorized_rejected_before_any_effect
              (api:=keyring_api_names) (host:=always_loads)
              "https://evil.example" evil_request boot eq_refl)
    as ((w1 & E1 & _) & _ & Hn & Hboot).
  split; [rewrite E1; reflexivity|].
  split.
  - destruct (Hn 3) as (w3 & E3 & _). rewrite E3. reflexivity.
  - apply (Hboot 3).
Defined.

Lemma unauthorized_error_is_plain_and_shared_witness :
  hasPermission (api:=keyring_api_names)
    "metamask" (method create_account) = false
  ∧ (onRpcRequest (api:=keyring_api_names) (host:=always_loads)
       "metamask" create_account boot).1
    = Rejected (Error
        "Origin 'metamask' is not allowed to call 'keyring_createAccount'")
  ∧ (onRpcRequest (api:=keyring_api_names) (host:=always_loads)
       "metamask" create_account boot).1
    = (onKeyringRequest (api:=keyring_api_names) (host:=always_loads)
         "metamask" create_account boot).1.
Proof.
  split; [reflexivity|].
  destruct (unauthorized_error_is_plain_and_shared
              (api:=keyring_api_names) (host:=always_loads)
              "metamask" create_account boot eq_refl)
    as (E1 & _ & E2 & _).
  split; [exact E1 | exact E2].
Defined.

(** A keyring method that [metamask] may call, sent to [onRpcRequest]. *)
Lemma onRpcRequest_unmatched_method_not_supported_witness :
  hasPermission (api:=keyring_api_names)
    "metamask" (method get_request) = true
  ∧ (method get_request ∉ [ InternalMethod.ToggleSyncApprovals;
                            InternalMethod.IsSynchronousMode;
                            InternalMethod.CreateAccountWithPrivateKey ])
  ∧ (onRpcRequest (api:=keyring_api_names) (host:=always_loads)
       "metamask" get_request boot).1
    = Rejected (MethodNotSupportedError "keyring_getRequest").
Proof.
  assert (Hm : method get_request
               ∉ [ InternalMethod.ToggleSyncApprovals;
                   InternalMethod.IsSynchronousMode;
                   InternalMethod.CreateAccountWithPrivateKey ]).
  { rewrite !not_elem_of_cons. repeat split; try discriminate.
    apply not_elem_of_nil. }
  split; [reflexivity|]. split; [exact Hm|].
  destruct (onRpcRequest_unmatched_method_not_supported
              (api:=keyring_api_names) (host:=always_loads)
              "metamask" get_request boot eq_refl Hm) as (w' & E & _).
  rewrite E. reflexivity.
Defined.

(** Scenario 4: [GetRequest] from [metamask] through [onKeyringRequest]. *)
Lemma onKeyringRequest_forwards_request_witness :
  hasPermission (api:=keyring_api_names)
    "metamask" (method get_request) = true
  ∧ onKeyringRequest (api:=keyring_api_names) (host:=always_loads)
      "metamask" get_request boot
    = (Resolved "handled:keyring_getRequest",
       {| keyring := Some {| kr_address := 0; kr_state := 7 |};
          allocated := 1;
          trace :=
            [ EvLoggerDebug
                ("Keyring request (origin=" +:+ dquote +:+ "metamask"
                 +:+ dquote +:+ "):") "keyring_getRequest";
              EvGetState;
              EvNewSimpleKeyring {| kr_address := 0; kr_state := 7 |};
              EvHandleKeyringRequest {| kr_address := 0; kr_state := 7 |}
                                     get_request ] |}).
Proof.
  split; [reflexivity|].
  pose proof (onKeyringRequest_forwards_request
                (api:=keyring_api_names) (host:=always_loads)
                "metamask" get_request boot eq_refl) as H.
  cbv zeta in H.
  change (getKeyring (host:=always_loads) _)
    with (Resolved (Json:=string) {| kr_address := 0; kr_state := 7 |},
          {| keyring := Some {| kr_address := 0; kr_state := 7 |};
             allocated := 1;
             trace :=
               [ EvLoggerDebug (Json:=string)
                   ("Keyring request (origin=" +:+ dquote +:+ "metamask"
                    +:+ dquote +:+ "):") "keyring_getRequest";
                 EvGetState;
                 EvNewSimpleKeyring {| kr_address := 0; kr_state := 7 |} ] |})
    in H.
  destruct H as [_ H]. rewrite H. reflexivity.
Defined.

Lemma originPermissions_contents_witness :
  Inj (=) (=) keyring_api_names
  ∧ hasPermission (api:=keyring_api_names) "metamask" "keyring_createAccount"
    = false
  ∧ (onKeyringRequest (api:=keyring_api_names) (host:=always_loads)
       "metamask" create_account boot).1
    = Rejected (Error
        "Origin 'metamask' is not allowed to call 'keyring_createAccount'").
Proof.
  split; [exact keyring_api_names_inj|].
  destruct (originPermissions_contents (api:=keyring_api_names)
              (host:=always_loads) keyring_api_names_inj)
    as (_ & _ & _ & Hno & Hcall).
  split; [exact Hno|].
  destruct (Hcall create_account boot eq_refl) as [_ E].
  rewrite E. reflexivity.
Defined.

Lemma getKeyring_load_failure_leaves_cache_empty_witness :
  keyring (boot (Json:=string) (State:=nat)) = None
  ∧ getState_reply (Collaborators:=first_load_fails) (trace boot)
    = Rejected (Failure "storage unavailable")
  ∧ getKeyring (host:=first_load_fails) boot
    = (Rejected (Failure "storage unavailable"),
       {| keyring := None; allocated := 0; trace := [EvGetState] |})
  ∧ getKeyring (host:=first_load_fails)
      {| keyring := None; allocated := 0; trace := [EvGetState] |}
    = (Resolved {| kr_address := 0; kr_state := 7 |},
       {| keyring := Some {| kr_address := 0; kr_state := 7 |};
          allocated := 1;
          trace := [ EvGetState; EvGetState;
                     EvNewSimpleKeyring {| kr_address := 0; kr_state := 7 |} ]
       |}).
Proof.
  split; [reflexivity|]. split; [reflexivity|].
  destruct (getKeyring_load_failure_leaves_cache_empty
              (host:=first_load_fails) boot
              (Failure "storage unavailable") eq_refl eq_refl)
    as (E1 & _ & _ & _ & Hretry & _).
  split; [exact E1|].
  exact (Hretry 7 eq_refl).
Defined.

Lemma overlapping_first_calls_share_one_keyring_witness :
  [ Call 1; Call 0; Resume 0 (Resolved 5); Resume 1 (Resolved 9) ]
    ∈ interleavings
        [Call (Json:=string) 0; Resume 0 (Resolved 5)]
        [Call 1; Resume 1 (Resolved 9)]
  ∧ overlapping
      [ Call (Json:=string) 1; Call 0;
        Resume 0 (Resolved 5); Resume 1 (Resolved 9) ] = true
  ∧ loads (world (run started
      [ Call (Json:=string) 1; Call 0;
        Resume 0 (Resolved 5); Resume 1 (Resolved 9) ])) = 2
  ∧ ∃ k, kr_state k = 5
         ∧ constructed (world (run started
             [ Call (Json:=string) 1; Call 0;
               Resume 0 (Resolved 5); Resume 1 (Resolved 9) ])) = [k].
Proof.
  assert (Hin :
    [ Call 1; Call 0; Resume 0 (Resolved 5); Resume 1 (Resolved 9) ]
      ∈ interleavings
          [Call (Json:=string) 0; Resume 0 (Resolved 5)]
          [Call 1; Resume 1 (Resolved 9)]).
  { simpl. do 3 apply list_elem_of_further. apply list_elem_of_here. }
  split; [exact Hin|]. split; [reflexivity|].
  destruct (overlapping_first_calls_share_one_keyring
              (Resolved 5) (Resolved 9) _ Hin eq_refl)
    as (Hl & _ & _ & Hboth).
  split; [exact Hl|].
  destruct (Hboth 5 9 eq_refl eq_refl) as (k & H0 & _ & _ & Hc & _).
  exists k. split; [|exact Hc].
  injection H0 as <-. reflexivity.
Defined.



(** Scenario 2: [snap.internal.isSynchronousMode] from
    [http://localhost:8000]. *)
Lemma onRpcRequest_mode_methods_use_keyring_only_witness :
  hasPermission (api:=keyring_api_names)
    "http://localhost:8000" InternalMethod.IsSynchronousMode = true
  ∧ onRpcRequest (api:=keyring_api_names) (host:=always_loads)
      "http://localhost:8000"
      {| req_id := "4"; method := InternalMethod.IsSynchronousMode;
         params := None |} boot
    = (Resolved "true",
       {| keyring := Some {| kr_address := 0; kr_state := 7 |};
          allocated := 1;
          trace :=
            [ EvLoggerDebug
                ("RPC request (origin=" +:+ dquote +:+ "http://localhost:8000"
                 +:+ dquote +:+ "):") InternalMethod.IsSynchronousMode;
              EvGetState;
              EvNewSimpleKeyring {| kr_address := 0; kr_state := 7 |};
              EvIsSynchronousMode {| kr_address := 0; kr_state := 7 |} ] |}).
Proof.
  split; [reflexivity|].
  assert (Hm : InternalMethod.IsSynchronousMode
               ∈ [ InternalMethod.ToggleSyncApprovals;
                   InternalMethod.IsSynchronousMode ]).
  { apply list_elem_of_further, list_elem_of_here. }
  pose proof (onRpcRequest_mode_methods_use_keyring_only
                (api:=keyring_api_names) (host:=always_loads)
                "http://localhost:8000"
                {| req_id := "4"; method := InternalMethod.IsSynchronousMode;
                   params := None |} boot eq_refl Hm) as H.
  exact H.
Defined.

(** Scenario 3 run on the sample collaborators: the entropy request
    carries no salt; the answer [0x1f2e3d] reaches [createAccount] as
    [1f2e3d]. *)
Example createAccountWithPrivateKey_run :
  onRpcRequest (api:=keyring_api_names) (host:=always_loads)
    "https://metamask.github.io"
    {| req_id := "5"; method := InternalMethod.CreateAccountWithPrivateKey;
       params := None |} boot
  = (Resolved "account:1f2e3d",
     {| keyring := Some {| kr_address := 0; kr_state := 7 |};
        allocated := 1;
        trace :=
          [ EvLoggerDebug
              ("RPC request (origin=" +:+ dquote
               +:+ "https://metamask.github.io" +:+ dquote +:+ "):")
              InternalMethod.CreateAccountWithPrivateKey;
            EvSnapRequest
              {| snap_method := "snap_getEntropy";
                 snap_params := {| version := 1; salt := None |} |};
            EvGetState;
            EvNewSimpleKeyring {| kr_address := 0; kr_state := 7 |};
            EvCreateAccount {| kr_address := 0; kr_state := 7 |}
                            {| privateKey := "1f2e3d" |} ] |}).
Proof. reflexivity. Qed.

(** * The further properties on concrete requests *)

Lemma keyring_api_names_not_custom :
  ∀ r, keyring_api_names r ∉ [ InternalMethod.ToggleSyncApprovals;
                               InternalMethod.IsSynchronousMode;
                               InternalMethod.CreateAccountWithPrivateKey ].
Proof.
  intros []; rewrite !not_elem_of_cons; repeat split; try discriminate;
    apply not_elem_of_nil.
Qed.

Lemma hasPermission_closed_world_witness :
  hasPermission (api:=keyring_api_names) "metamask" "keyring_getRequest"
  = true
  ∧ "metamask" ∈ [ "metamask"; "http://localhost:8000";
                   "https://metamask.github.io" ]
  ∧ ("keyring_getRequest"
       ∈ rpcName (KeyringApi:=keyring_api_names) <$> KeyringRpcMethod.all
     ∨ "keyring_getRequest"
         ∈ [ InternalMethod.ToggleSyncApprovals;
             InternalMethod.IsSynchronousMode;
             InternalMethod.CreateAccountWithPrivateKey ]).
Proof.
  split; [reflexivity|].
  exact (hasPermission_closed_world (api:=keyring_api_names)
           "metamask" "keyring_getRequest" eq_refl).
Defined.

Lemma submit_and_approve_are_separated_witness :
  Inj (=) (=) keyring_api_names
  ∧ (∀ r, keyring_api_names r ∉ [ InternalMethod.ToggleSyncApprovals;
                                  InternalMethod.IsSynchronousMode;
                                  InternalMethod.CreateAccountWithPrivateKey ])
  ∧ hasPermission (api:=keyring_api_names)
      "metamask" "keyring_submitRequest" = true
  ∧ hasPermission (api:=keyring_api_names)
      "http://localhost:8000" "keyring_approveRequest" = true
  ∧ ¬ (hasPermission (api:=keyring_api_names)
         "http://localhost:8000" "keyring_submitRequest" = true
       ∧ hasPermission (api:=keyring_api_names)
           "http://localhost:8000" "keyring_approveRequest" = true).
Proof.
  split; [exact keyring_api_names_inj|].
  split; [exact keyring_api_names_not_custom|].
  split; [reflexivity|]. split; [reflexivity|].
  exact (proj2 (proj2 (proj2
    (submit_and_approve_are_separated (api:=keyring_api_names)
       keyring_api_names_inj keyring_api_names_not_custom
       "http://localhost:8000")))).
Defined.

Lemma metamask_gets_nothing_from_onRpcRequest_witness :
  (∀ r, keyring_api_names r ∉ [ InternalMethod.ToggleSyncApprovals;
                                InternalMethod.IsSynchronousMode;
                                InternalMethod.CreateAccountWithPrivateKey ])
  ∧ onRpcRequest (api:=keyring_api_names) (host:=always_loads)
      "metamask" get_request boot
    = (Rejected (MethodNotSupportedError "keyring_getRequest"),
       {| keyring := None; allocated := 0;
          trace :=
            [ EvLoggerDebug
                ("RPC request (origin=" +:+ dquote +:+ "metamask" +:+ dquote
                 +:+ "):") "keyring_getRequest" ] |}).
Proof.
  split; [exact keyring_api_names_not_custom|].
  exact (metamask_gets_nothing_from_onRpcRequest (api:=keyring_api_names)
           (host:=always_loads) get_request boot
           keyring_api_names_not_custom).
Defined.

Lemma createAccountWithPrivateKey_failures_pass_through_witness :
  hasPermission (api:=keyring_api_names)
    "https://metamask.github.io" (method create_with_private_key) = true
  ∧ method create_with_private_key
    = InternalMethod.CreateAccountWithPrivateKey
  ∧ onRpcRequest (api:=keyring_api_names) (host:=entropy_denied)
      "https://metamask.github.io" create_with_private_key boot
    = (Rejected (Failure "user rejected"),
       {| keyring := None; allocated := 0;
          trace :=
            [ EvLoggerDebug
                ("RPC request (origin=" +:+ dquote
                 +:+ "https://metamask.github.io" +:+ dquote +:+ "):")
                InternalMethod.CreateAccountWithPrivateKey;
              EvSnapRequest
                {| snap_method := "snap_getEntropy";
                   snap_params := {| version := 1; salt := None |} |} ] |}).
Proof.
  split; [reflexivity|]. split; [reflexivity|].
  exact (proj1 (proj1
    (createAccountWithPrivateKey_failures_pass_through
       (api:=keyring_api_names) (host:=entropy_denied)
       "https://metamask.github.io" create_with_private_key boot
       eq_refl eq_refl)
    (Failure "user rejected") eq_refl)).
Defined.

Lemma first_loaded_state_wins_witness :
  keyring (world (run started [Call (Json:=string) (State:=nat) 0; Call 1]))
  = None
  ∧ tasks (run started [Call (Json:=string) (State:=nat) 0; Call 1]) !! 1
    = Some Suspended
  ∧ ∃ k, kr_state k = 9
         ∧ keyring (world (run started
             [ Call (Json:=string) 0; Call 1;
               Resume 1 (Resolved 9); Resume 0 (Resolved 5) ])) = Some k
         ∧ tasks (run started
             [ Call (Json:=string) 0; Call 1;
               Resume 1 (Resolved 9); Resume 0 (Resolved 5) ]) !! 0
           = Some (Settled (Resolved k)).
Proof.
  split; [reflexivity|]. split; [reflexivity|].
  destruct (first_loaded_state_wins (Json:=string)
              [Call 0; Call 1] [Resume 0 (Resolved 5)] 1 9
              eq_refl eq_refl) as (k & Hstate & Hk & _ & Hall).
  exists k. split; [exact Hstate|]. split; [exact Hk|].
  simpl in Hk. injection Hk as <-. reflexivity.
Defined.
